(** * fe-ota: the project/version state container and its callers

    A shallow embedding of
    - the domain types ([Platform], [DeploymentEnvironment], [AppVersion],
      [Project], [BundleUpdate]),
    - the state container [ProjectsProvider] (fetchProjects, addProject,
      deleteProject, updateProjectDetails, getProjectById, addAppVersion,
      deleteAppVersion, updateVersionEnvironments),
    - the page handler [toggleVersionEnvironment] of ProjectDetailsPage,
    - the service function [generateReleaseNotes] of geminiService,
    followed by the properties the specification states about them; and
    of the callers and neighbours of these: [handleAddVersion] of
    ProjectDetailsPage, [handleCreateProject] and [togglePlatform] of
    DashboardPage, the effects of MockDownloadPage and
    [generateTextWithGoogleSearch] of geminiService, with properties read
    off the code.

    Conventions of the embedding.
    - A JavaScript computation that either yields a value or throws is a
      [Completion]; [try { a } catch (e) { b }] is a [match] on it.
    - The three [useState] cells of the provider are the record [State];
      an operation is a function [State -> State * result].  One operation
      runs from its first [setLoading(true)] to its return without another
      one interleaving.
    - The network is a parameter: an operation receives the function
      [fetch], which maps the request the operation builds to what
      [await fetch(...)] gives, a rejected promise or a [Response]. *)

From Stdlib Require Import ZArith List Sorted Permutation Ascii String.
From stdpp Require Import base decidable option list sorting strings pretty.

Open Scope Z_scope.

(** ** JavaScript values the code tests for truthiness *)

(** A completion: normal return, or a thrown [Error] of which the handlers
    of this code base only ever read [e.message]. *)
Inductive Completion (A : Type) : Type :=
| Return (a : A)
| Throw (message : string).
Arguments Return {A} a.
Arguments Throw {A} message.

#[global] Instance Completion_ret : MRet Completion := fun A a => Return a.

#[global] Instance Completion_bind : MBind Completion := fun A B k c =>
  match c with
  | Return a => k a
  | Throw m => Throw m
  end.

(** A property read off a parsed JSON object whose declared type is [T]:
    the property can be missing ([undefined]), [null], another falsy scalar
    ([false], [0], the empty string) or a value of the declared type.
    Objects and arrays, the empty array included, are truthy. *)
Inductive Field (T : Type) : Type :=
| Absent
| JsonNull
| JsonFalsy
| Present (t : T).
Arguments Absent {T}.
Arguments JsonNull {T}.
Arguments JsonFalsy {T}.
Arguments Present {T} t.

(** [field || dflt] for a field whose values of type [T] are objects. *)
Definition field_or {T} (f : Field T) (dflt : T) : T :=
  match f with
  | Present t => t
  | _ => dflt
  end.

(** [s || dflt] on strings: the empty string is falsy. *)
Definition str_or (s dflt : string) : string :=
  if decide (s = "") then dflt else s.

(** [o || dflt] on an optional string property: [undefined] and the empty
    string are falsy. *)
Definition opt_str_or (o : option string) (dflt : string) : string :=
  match o with
  | Some s => str_or s dflt
  | None => dflt
  end.

(** [!o] on an optional string. *)
Definition not_str (o : option string) : bool :=
  match o with
  | Some s => bool_decide (s = "")
  | None => true
  end.

(** ** Domain types (the declarations of types.ts) *)

Inductive Platform := Android | iOS.

Inductive DeploymentEnvironment := Development | Staging | Production.

Inductive RnPlatform := rn_android | rn_ios.

#[global] Instance Platform_eq_dec : EqDecision Platform.
Proof. solve_decision. Defined.

#[global] Instance DeploymentEnvironment_eq_dec : EqDecision DeploymentEnvironment.
Proof. solve_decision. Defined.

Module AppVersion.
Record t := mk {
  _id : string;
  platform : Platform;
  versionName : string;
  buildNumber : string;
  fileName : string;
  fileSize : string;
  uploadDate : string;            (* ISO string from backend *)
  releaseNotes : option string;
  downloadUrl : string;
  qrCodeValue : string;
  filePath : string;
  activeEnvironments : list DeploymentEnvironment
}.

(** [{ ...v, activeEnvironments: envs }] *)
Definition with_activeEnvironments (v : t) (envs : list DeploymentEnvironment) : t :=
  {| _id := _id v; platform := platform v; versionName := versionName v;
     buildNumber := buildNumber v; fileName := fileName v;
     fileSize := fileSize v; uploadDate := uploadDate v;
     releaseNotes := releaseNotes v; downloadUrl := downloadUrl v;
     qrCodeValue := qrCodeValue v; filePath := filePath v;
     activeEnvironments := envs |}.
End AppVersion.

Module BundleUpdate.
Record t := mk {
  _id : string;
  bundleVersion : string;
  platform : RnPlatform;
  bundleUrl : string;
  bundleHash : string;
  fileName : string;
  fileSize : string;
  filePath : string;
  description : option string;
  isMandatory : option bool;
  createdAt : string
}.
End BundleUpdate.

Module Project.
Record t := mk {
  _id : string;
  name : string;
  description : option string;
  createdAt : string;             (* ISO string from backend *)
  platforms : list Platform;
  versions : list AppVersion.t;
  rnPlatforms : option (list RnPlatform);
  bundleUpdates : option (list BundleUpdate.t)
}.

(** [{ ...p, versions: vs }] *)
Definition with_versions (p : t) (vs : list AppVersion.t) : t :=
  {| _id := _id p; name := name p; description := description p;
     createdAt := createdAt p; platforms := platforms p; versions := vs;
     rnPlatforms := rnPlatforms p; bundleUpdates := bundleUpdates p |}.
End Project.


Definition Platform_value (p : Platform) : string :=
  match p with
  | Android => "Android"
  | iOS => "iOS"
  end.

(** The browser's [File]: the container only hands it to [FormData]. *)
Module File.
Record t := mk { name : string; size : N; type : string }.
End File.

(** [Omit<AppVersion, "_id" | "uploadDate" | "downloadUrl" | "qrCodeValue" |
    "fileSize" | "filePath" | "activeEnvironments">] *)
Module VersionData.
Record t := mk {
  platform : Platform;
  versionName : string;
  buildNumber : string;
  fileName : string;
  releaseNotes : option string
}.
End VersionData.

(** ** The HTTP exchange *)

Definition API_BASE_URL : string := "http://localhost:3000".

Inductive Method := GET | POST | PUT | DELETE.

Inductive FormValue :=
| FormFile (f : File.t)
| FormString (s : string).

Inductive RequestBody :=
| NoBody
| ProjectJson (name : string) (description : option string) (platforms : list Platform)
| EnvironmentsJson (activeEnvironments : list DeploymentEnvironment)
| FormData (fields : list (string * FormValue)).

Record Request := mkRequest {
  method : Method;
  url : string;
  body : RequestBody
}.

(** The parsed body, a JSON object.  [apiResponse] is [any] in the source;
    [data] has the type the operation's signature gives to
    [apiResponse.data], and [message] is the property [handleApiResponse]
    reads on a failure status ([None]: the body has no such property).
    A body that parses to [null] makes the read of a property throw a
    TypeError inside the operation's [try], as a body that does not parse
    does: where a property is read it is a [Throw] of [json]; a delete
    with a 2xx status reads none and takes it as it takes an object. *)
Record Body (D : Type) := mkBody {
  message : option string;
  data : D
}.
Arguments mkBody {D} message data.
Arguments message {D} b.
Arguments data {D} b.

(** A [Response]: its status and what [response.json()] settles to. *)
Record Response (D : Type) := mkResponse {
  status : Z;
  json : Completion (Body D)
}.
Arguments mkResponse {D} status json.
Arguments status {D} r.
Arguments json {D} r.

(** [response.ok]: the status is in the range 200-299. *)
Definition ok {D} (response : Response D) : bool :=
  (200 <=? status response) && (status response <=? 299).

(** What [await fetch(url, init)] gives: [Throw] when the promise rejects
    (no connection, DNS, CORS), otherwise the response. *)
Definition Fetch (D : Type) : Type := Request -> Completion (Response D).

Definition handleApiResponse {D} (response : Response D) : Completion (Body D) :=
  data ← json response;
  if negb (ok response)
  then Throw (opt_str_or (message data)
                ("HTTP error! status: " +:+ pretty (status response)))
  else Return data.

(** ** The provider's state *)

Record State := mkState {
  projects : list Project.t;
  loading : bool;
  error : option string
}.

Definition setProjects (ps : list Project.t) (st : State) : State :=
  {| projects := ps; loading := loading st; error := error st |}.

Definition setLoading (b : bool) (st : State) : State :=
  {| projects := projects st; loading := b; error := error st |}.

Definition setError (e : option string) (st : State) : State :=
  {| projects := projects st; loading := loading st; error := e |}.

(** [useState([])], [useState(true)], [useState(null)] *)
Definition initialState : State :=
  {| projects := []; loading := true; error := None |}.

(** ** Array.prototype.sort

    The sort of ECMAScript 2019 and later is stable, and with a consistent
    comparator its result is the one stable sorted arrangement of the
    input; the insertion sort below computes it.  [comparefn a b <= 0]
    keeps [a] in front of [b]. *)
Section ArraySort.
Context {A : Type} (comparefn : A -> A -> Z).

(** [a] may stand in front of [b]. *)
Definition before (a b : A) : Prop := comparefn a b <= 0.

Fixpoint sort_insert (x : A) (l : list A) : list A :=
  match l with
  | [] => [x]
  | y :: l' =>
      if decide (comparefn x y <= 0) then x :: y :: l'
      else y :: sort_insert x l'
  end.

Fixpoint Array_sort (l : list A) : list A :=
  match l with
  | [] => []
  | x :: l' => sort_insert x (Array_sort l')
  end.
End ArraySort.

(** ** The state container (ProjectsProvider) *)

Section Container.
(** [new Date(s).getTime()], in milliseconds since the epoch, for the
    ISO date strings the backend sends.  A string that is not a date
    gives NaN, and with a NaN among the keys the order that
    [Array.prototype.sort] produces is implementation-defined: such
    strings are outside the embedding. *)
Variable getTime : string -> Z.

(** [new Date(v.uploadDate).getTime()] *)
Definition uploadTime (v : AppVersion.t) : Z :=
  getTime (AppVersion.uploadDate v).

(** [(a, b) => new Date(b.uploadDate).getTime() -
               new Date(a.uploadDate).getTime()] *)
Definition byUploadDateDesc (a b : AppVersion.t) : Z :=
  uploadTime b - uploadTime a.

(** Descending order of upload time: [a] is not older than [b]. *)
Definition notOlder (a b : AppVersion.t) : Prop :=
  uploadTime b <= uploadTime a.

(** The versions of a list that were uploaded at the time [t], in the
    order the list has them. *)
Definition uploadedAt (t : Z) (l : list AppVersion.t) : list AppVersion.t :=
  filter (fun v => uploadTime v = t) l.

Definition fetchProjects (fetch : Fetch (Field (list Project.t)))
    (st : State) : State * unit :=
  let st := setLoading true st in
  let st := setError None st in
  let st :=
    match
      response ← fetch {| method := GET;
                          url := API_BASE_URL +:+ "/projects";
                          body := NoBody |};
      handleApiResponse response
    with
    | Return apiResponse => setProjects (field_or (data apiResponse) []) st
    | Throw e_message =>
        let st := setError (Some (str_or e_message "Failed to fetch projects.")) st in
        setProjects [] st
    end in
  (setLoading false st, tt).

Definition addProject (name : string) (description : option string)
    (platforms : list Platform) (fetch : Fetch Project.t)
    (st : State) : State * option Project.t :=
  let st := setLoading true st in
  let st := setError None st in
  match
    response ← fetch {| method := POST;
                        url := API_BASE_URL +:+ "/projects";
                        body := ProjectJson name description platforms |};
    handleApiResponse response
  with
  | Return apiResponse =>
      let newProject := data apiResponse in
      let st := setProjects (projects st ++ [newProject]) st in
      let st := setLoading false st in
      (st, Some newProject)
  | Throw e_message =>
      let st := setError (Some (str_or e_message "Failed to add project.")) st in
      let st := setLoading false st in
      (st, None)
  end.

Definition deleteProject (projectId : string) (fetch : Fetch unit)
    (st : State) : State * bool :=
  let st := setLoading true st in
  let st := setError None st in
  match
    response ← fetch {| method := DELETE;
                        url := API_BASE_URL +:+ "/projects/" +:+ projectId;
                        body := NoBody |};
    handleApiResponse response
  with
  | Return _ =>
      let st := setProjects
                  (filter (fun p => Project._id p <> projectId) (projects st)) st in
      let st := setLoading false st in
      (st, true)
  | Throw e_message =>
      let st := setError (Some (str_or e_message "Failed to delete project.")) st in
      let st := setLoading false st in
      (st, false)
  end.

Definition updateProjectDetails (projectId : string) (name : string)
    (description : option string) (platforms : list Platform)
    (fetch : Fetch Project.t) (st : State) : State * option Project.t :=
  let st := setLoading true st in
  let st := setError None st in
  match
    response ← fetch {| method := PUT;
                        url := API_BASE_URL +:+ "/projects/" +:+ projectId;
                        body := ProjectJson name description platforms |};
    handleApiResponse response
  with
  | Return apiResponse =>
      let updatedProject := data apiResponse in
      let st := setProjects
                  ((fun p => if decide (Project._id p = projectId)
                             then updatedProject else p) <$> projects st) st in
      let st := setLoading false st in
      (st, Some updatedProject)
  | Throw e_message =>
      let st := setError (Some (str_or e_message "Failed to update project.")) st in
      let st := setLoading false st in
      (st, None)
  end.

(** A closure over the [projects] of the current render: no request. *)
Definition getProjectById (st : State) (projectId : string) : option Project.t :=
  snd <$> list_find (fun p => Project._id p = projectId) (projects st).

(** The multipart payload of an upload. *)
Definition versionFormData (versionData : VersionData.t) (file : File.t)
    : list (string * FormValue) :=
  [("appFile", FormFile file);
   ("platform", FormString (Platform_value (VersionData.platform versionData)));
   ("versionName", FormString (VersionData.versionName versionData));
   ("buildNumber", FormString (VersionData.buildNumber versionData))]
  ++ match VersionData.releaseNotes versionData with
     | Some notes => if decide (notes = "") then []
                     else [("releaseNotes", FormString notes)]
     | None => []
     end.

(** [p.versions] is declared [AppVersion[]], a truthy value, so that
    [p.versions || []] is [p.versions]. *)
Definition addAppVersion (projectId : string) (versionData : VersionData.t)
    (file : File.t) (fetch : Fetch AppVersion.t)
    (st : State) : State * option AppVersion.t :=
  let st := setLoading true st in
  let st := setError None st in
  let formData := versionFormData versionData file in
  match
    response ← fetch {| method := POST;
                        url := API_BASE_URL +:+ "/projects/" +:+ projectId
                               +:+ "/versions";
                        body := FormData formData |};
    handleApiResponse response
  with
  | Return apiResponse =>
      let newVersion := data apiResponse in
      let st := setProjects
        ((fun p =>
            if decide (Project._id p = projectId)
            then Project.with_versions p
                   (Array_sort byUploadDateDesc (newVersion :: Project.versions p))
            else p) <$> projects st) st in
      let st := setLoading false st in
      (st, Some newVersion)
  | Throw e_message =>
      let st := setError (Some (str_or e_message "Failed to add app version.")) st in
      let st := setLoading false st in
      (st, None)
  end.

Definition deleteAppVersion (projectId versionId : string) (fetch : Fetch unit)
    (st : State) : State * bool :=
  let st := setLoading true st in
  let st := setError None st in
  match
    response ← fetch {| method := DELETE;
                        url := API_BASE_URL +:+ "/projects/" +:+ projectId
                               +:+ "/versions/" +:+ versionId;
                        body := NoBody |};
    handleApiResponse response
  with
  | Return _ =>
      let st := setProjects
        ((fun p =>
            if decide (Project._id p = projectId)
            then Project.with_versions p
                   (filter (fun v => AppVersion._id v <> versionId)
                           (Project.versions p))
            else p) <$> projects st) st in
      let st := setLoading false st in
      (st, true)
  | Throw e_message =>
      let st := setError (Some (str_or e_message "Failed to delete app version.")) st in
      let st := setLoading false st in
      (st, false)
  end.

Definition updateVersionEnvironments (projectId versionId : string)
    (activeEnvironments : list DeploymentEnvironment)
    (fetch : Fetch AppVersion.t) (st : State) : State * option AppVersion.t :=
  let st := setLoading true st in
  let st := setError None st in
  match
    response ← fetch {| method := PUT;
                        url := API_BASE_URL +:+ "/projects/" +:+ projectId
                               +:+ "/versions/" +:+ versionId +:+ "/environments";
                        body := EnvironmentsJson activeEnvironments |};
    handleApiResponse response
  with
  | Return apiResponse =>
      let updatedVersion := data apiResponse in
      let st := setProjects
        ((fun p =>
            if decide (Project._id p = projectId)
            then Project.with_versions p
                   ((fun v => if decide (AppVersion._id v = versionId)
                              then updatedVersion else v)
                      <$> Project.versions p)
            else p) <$> projects st) st in
      let st := setLoading false st in
      (st, Some updatedVersion)
  | Throw e_message =>
      let st := setError
                  (Some (str_or e_message "Failed to update version environments.")) st in
      let st := setLoading false st in
      (st, None)
  end.
End Container.

(** Every call the provider offers that goes to the network, with its
    arguments and its network, and what the call returns to its caller. *)
Inductive Operation :=
| OpFetchProjects (fetch : Fetch (Field (list Project.t)))
| OpAddProject (name : string) (description : option string)
    (platforms : list Platform) (fetch : Fetch Project.t)
| OpDeleteProject (projectId : string) (fetch : Fetch unit)
| OpUpdateProjectDetails (projectId name : string) (description : option string)
    (platforms : list Platform) (fetch : Fetch Project.t)
| OpAddAppVersion (projectId : string) (versionData : VersionData.t)
    (file : File.t) (fetch : Fetch AppVersion.t)
| OpDeleteAppVersion (projectId versionId : string) (fetch : Fetch unit)
| OpUpdateVersionEnvironments (projectId versionId : string)
    (activeEnvironments : list DeploymentEnvironment) (fetch : Fetch AppVersion.t).

Inductive Returned :=
| RetVoid (u : unit)
| RetBool (b : bool)
| RetProject (p : option Project.t)
| RetVersion (v : option AppVersion.t).

(** [undefined], [false] and [null] are falsy; [true] and objects are not. *)
Definition falsy (r : Returned) : bool :=
  match r with
  | RetVoid _ => true
  | RetBool b => negb b
  | RetProject p => bool_decide (p = None)
  | RetVersion v => bool_decide (v = None)
  end.

Definition run (getTime : string -> Z) (op : Operation) (st : State)
    : State * Returned :=
  match op with
  | OpFetchProjects fetch => prod_map id RetVoid (fetchProjects fetch st)
  | OpAddProject name description platforms fetch =>
      prod_map id RetProject (addProject name description platforms fetch st)
  | OpDeleteProject projectId fetch =>
      prod_map id RetBool (deleteProject projectId fetch st)
  | OpUpdateProjectDetails projectId name description platforms fetch =>
      prod_map id RetProject
        (updateProjectDetails projectId name description platforms fetch st)
  | OpAddAppVersion projectId versionData file fetch =>
      prod_map id RetVersion
        (addAppVersion getTime projectId versionData file fetch st)
  | OpDeleteAppVersion projectId versionId fetch =>
      prod_map id RetBool (deleteAppVersion projectId versionId fetch st)
  | OpUpdateVersionEnvironments projectId versionId activeEnvironments fetch =>
      prod_map id RetVersion
        (updateVersionEnvironments projectId versionId activeEnvironments fetch st)
  end.

(** The request an operation sends. *)
Definition request_of (op : Operation) : Request :=
  match op with
  | OpFetchProjects _ =>
      mkRequest GET (API_BASE_URL +:+ "/projects") NoBody
  | OpAddProject name description platforms _ =>
      mkRequest POST (API_BASE_URL +:+ "/projects")
        (ProjectJson name description platforms)
  | OpDeleteProject projectId _ =>
      mkRequest DELETE (API_BASE_URL +:+ "/projects/" +:+ projectId) NoBody
  | OpUpdateProjectDetails projectId name description platforms _ =>
      mkRequest PUT (API_BASE_URL +:+ "/projects/" +:+ projectId)
        (ProjectJson name description platforms)
  | OpAddAppVersion projectId versionData file _ =>
      mkRequest POST (API_BASE_URL +:+ "/projects/" +:+ projectId +:+ "/versions")
        (FormData (versionFormData versionData file))
  | OpDeleteAppVersion projectId versionId _ =>
      mkRequest DELETE (API_BASE_URL +:+ "/projects/" +:+ projectId
                        +:+ "/versions/" +:+ versionId) NoBody
  | OpUpdateVersionEnvironments projectId versionId activeEnvironments _ =>
      mkRequest PUT (API_BASE_URL +:+ "/projects/" +:+ projectId
                     +:+ "/versions/" +:+ versionId +:+ "/environments")
        (EnvironmentsJson activeEnvironments)
  end.

(** The three failing outcomes of an exchange. *)
Inductive Failure {D} : Completion (Response D) -> Prop :=
| TransportFailure (m : string) :
    Failure (Throw m)
| DecodeFailure (status : Z) (m : string) :
    Failure (Return (mkResponse status (Throw m)))
| StatusFailure (status : Z) (b : Body D) :
    ¬ (200 <= status <= 299) ->
    Failure (Return (mkResponse status (Return b))).

(** The successful outcome: a 2xx status and a body that decodes. *)
Inductive Success {D} : Completion (Response D) -> Body D -> Prop :=
| Success2xx (status : Z) (b : Body D) :
    200 <= status <= 299 ->
    Success (Return (mkResponse status (Return b))) b.

Definition outcome_failed (op : Operation) : Prop :=
  match op with
  | OpFetchProjects fetch => Failure (fetch (request_of op))
  | OpAddProject _ _ _ fetch => Failure (fetch (request_of op))
  | OpDeleteProject _ fetch => Failure (fetch (request_of op))
  | OpUpdateProjectDetails _ _ _ _ fetch => Failure (fetch (request_of op))
  | OpAddAppVersion _ _ _ fetch => Failure (fetch (request_of op))
  | OpDeleteAppVersion _ _ fetch => Failure (fetch (request_of op))
  | OpUpdateVersionEnvironments _ _ _ fetch => Failure (fetch (request_of op))
  end.

(** The policy of the specification, as a check on one project: for every
    platform and environment at most one version of that platform is
    active in that environment. *)
Definition activeCount (platform : Platform) (environment : DeploymentEnvironment)
    (p : Project.t) : nat :=
  length (filter (fun v => AppVersion.platform v = platform
                           /\ environment ∈ AppVersion.activeEnvironments v)
                 (Project.versions p)).

Definition exclusive (p : Project.t) : bool :=
  forallb (fun platform =>
    forallb (fun environment => (activeCount platform environment p <=? 1)%nat)
            [Development; Staging; Production])
    [Android; iOS].

(** ** geminiService *)

Definition GEMINI_API_MODEL_TEXT : string := "gemini-2.5-flash-preview-04-17".

(** What a [catch (error)] clause can tell about the value it caught:
    [error instanceof Error] with its [message], or anything else with its
    [String(error)]. *)
Inductive Caught :=
| ErrorObject (message : string)
| OtherValue (asString : string).

(** What [await ai.models.generateContent(...)] gives. *)
Inductive Generation :=
| Generated (text : string)
| Rejected (error : Caught).

(** The part of a [GenerateContentResponse] that the search variant reads:
    [response.text] and
    [response.candidates?.[0]?.groundingMetadata?.groundingChunks]. *)
Module GoogleSearchWebResult.
Record t := mk { uri : string; title : string }.
End GoogleSearchWebResult.

Module GroundingChunk.
Record t := mk {
  web : option GoogleSearchWebResult.t;
  retrievedContext : option GoogleSearchWebResult.t
}.
End GroundingChunk.

Module GroundingMetadata.
Record t := mk { groundingChunks : option (list GroundingChunk.t) }.
End GroundingMetadata.

Module Candidate.
Record t := mk { groundingMetadata : option GroundingMetadata.t }.
End Candidate.

Module GenerateContentResponse.
Record t := mk { text : string; candidates : option (list Candidate.t) }.
End GenerateContentResponse.

Inductive GroundedGeneration :=
| Grounded (response : GenerateContentResponse.t)
| GroundedRejected (error : Caught).

(** [{ text, groundingChunks }] *)
Module GroundedText.
Record t := mk { text : string; groundingChunks : option (list GroundingChunk.t) }.
End GroundedText.

Module geminiService.
Section Gemini.
(** [process.env.API_KEY] *)
Variable API_KEY : option string.
(** The Gemini client: model and prompt to the outcome of the request. *)
Variable generateContent : string -> string -> Generation.

Definition generateReleaseNotes (prompt : string) : Completion string :=
  if not_str API_KEY
  then Return "AI-generated release notes are unavailable. Please provide an API_KEY or write them manually."
  else
    match generateContent GEMINI_API_MODEL_TEXT prompt with
    | Generated text => Return text
    | Rejected error =>
        Throw ("Failed to generate content: " +:+
               match error with
               | ErrorObject message => message
               | OtherValue asString => asString
               end)
    end.

(** The Gemini client with the [googleSearch] tool. *)
Variable generateContentWithSearch : string -> string -> GroundedGeneration.

Definition generateTextWithGoogleSearch (prompt : string) : Completion GroundedText.t :=
  if not_str API_KEY
  then Return {| GroundedText.text :=
                   "Google Search grounding is unavailable. Please provide an API_KEY.";
                 GroundedText.groundingChunks := Some [] |}
  else
    match generateContentWithSearch GEMINI_API_MODEL_TEXT prompt with
    | Grounded response =>
        let text := GenerateContentResponse.text response in
        let groundingMetadata :=
          candidates ← GenerateContentResponse.candidates response;
          candidate ← head candidates;
          Candidate.groundingMetadata candidate in
        let groundingChunks :=
          metadata ← groundingMetadata;
          GroundingMetadata.groundingChunks metadata in
        Return {| GroundedText.text := text;
                  GroundedText.groundingChunks := groundingChunks |}
    | GroundedRejected error =>
        Throw ("Failed to generate content with search: " +:+
               match error with
               | ErrorObject message => message
               | OtherValue asString => asString
               end)
    end.
End Gemini.
End geminiService.

(** ** ProjectDetailsPage *)

Module ProjectDetailsPage.
(** The prompt the page composes (a template literal over three of its
    form fields, the project and the selected file). *)
Definition releaseNotesPrompt (project : Project.t) (newVersionPlatform : Platform)
    (newVersionName newBuildNumber : string) (selectedFile : File.t) : string :=
  "Generate concise and informative release notes for an app update.
            Project: " +:+ Project.name project +:+ "
            Platform: " +:+ Platform_value newVersionPlatform +:+ "
            Version: " +:+ newVersionName +:+ " (Build: " +:+ newBuildNumber +:+ ")
            File: " +:+ File.name selectedFile +:+ "
            Focus on key new features, bug fixes, and improvements. Be brief.".

(** The callback behind the button that drafts the release notes: the
    value of the form field [newReleaseNotes] after it has run. *)
Definition generateReleaseNotes (API_KEY : option string)
    (generateContent : string -> string -> Generation)
    (project : option Project.t) (selectedFile : option File.t)
    (newVersionPlatform : Platform) (newVersionName newBuildNumber : string)
    (newReleaseNotes : string) : string :=
  match project, selectedFile with
  | Some project, Some selectedFile =>
      match
        geminiService.generateReleaseNotes API_KEY generateContent
          (releaseNotesPrompt project newVersionPlatform newVersionName
             newBuildNumber selectedFile)
      with
      | Return notes => notes
      | Throw _ => "Automated release notes generation failed. Please write manually."
      end
  | _, _ => newReleaseNotes
  end.

(** Toggling an environment of a version.  [project] is the page's copy of the project.  After the call to the
    container the handler refreshes that copy from the cache, or alerts;
    neither touches the provider's state, which is what is returned. *)
Definition toggleVersionEnvironment (project : option Project.t)
    (versionId : string) (environment : DeploymentEnvironment)
    (fetch : Fetch AppVersion.t) (st : State) : State :=
  match project with
  | None => st
  | Some project =>
      match snd <$> list_find (fun v => AppVersion._id v = versionId)
                               (Project.versions project) with
      | None => st
      | Some targetVersion =>
          let isCurrentlyActive :=
            bool_decide (environment ∈ AppVersion.activeEnvironments targetVersion) in
          let newActiveEnvironments :=
            if isCurrentlyActive
            then filter (fun e => e <> environment)
                        (AppVersion.activeEnvironments targetVersion)
            else
              let updatedVersionsForProject :=
                (fun v =>
                   if decide (AppVersion.platform v = AppVersion.platform targetVersion
                              /\ AppVersion._id v <> versionId)
                   then AppVersion.with_activeEnvironments v
                          (filter (fun e => e <> environment)
                                  (AppVersion.activeEnvironments v))
                   else v) <$> Project.versions project in
              AppVersion.activeEnvironments targetVersion ++ [environment] in
          fst (updateVersionEnvironments (Project._id project) versionId
                 newActiveEnvironments fetch st)
      end
  end.

(** The fields of the upload dialog (the page's [useState] cells that
    [handleAddVersion] reads and resets). *)
Record Form := mkForm {
  isUploadModalOpen : bool;
  newVersionPlatform : Platform;
  newVersionName : string;
  newBuildNumber : string;
  newReleaseNotes : string;
  selectedFile : option File.t
}.

Section Handlers.
(** [String.prototype.trim] *)
Variable trim : string -> string.
Variable getTime : string -> Z.

(** The handler of the dialog's "Add Version" button: the form and the
    provider's state after it has run.  An alert is the only other effect
    of the paths that send nothing or fail; after a success the handler
    also refreshes the page's copy of the project from the cache. *)
Definition handleAddVersion (project : option Project.t) (form : Form)
    (fetch : Fetch AppVersion.t) (st : State) : Form * State :=
  match project, selectedFile form with
  | Some project, Some file =>
      if decide (trim (newVersionName form) = "" \/ trim (newBuildNumber form) = "")
      then (form, st)
      else
        let versionData :=
          {| VersionData.platform := newVersionPlatform form;
             VersionData.versionName := newVersionName form;
             VersionData.buildNumber := newBuildNumber form;
             VersionData.fileName := File.name file;
             VersionData.releaseNotes := Some (newReleaseNotes form) |} in
        let '(st, addedVersion) :=
          addAppVersion getTime (Project._id project) versionData file fetch st in
        match addedVersion with
        | Some _ =>
            ({| isUploadModalOpen := false;
                newVersionPlatform :=
                  match Project.platforms project with
                  | first :: _ => first
                  | [] => newVersionPlatform form
                  end;
                newVersionName := "";
                newBuildNumber := "";
                newReleaseNotes := "";
                selectedFile := None |}, st)
        | None => (form, st)
        end
  | _, _ => (form, st)
  end.
End Handlers.
End ProjectDetailsPage.

(** ** DashboardPage *)

Module DashboardPage.
(** The fields of the "Create New Project" dialog. *)
Record Form := mkForm {
  isModalOpen : bool;
  newProjectName : string;
  newProjectDescription : string;
  selectedPlatforms : list Platform
}.

(** The updater [togglePlatform] hands to [setSelectedPlatforms]. *)
Definition togglePlatform (platform : Platform) (prev : list Platform)
    : list Platform :=
  if bool_decide (platform ∈ prev)
  then filter (fun p => p <> platform) prev
  else prev ++ [platform].

Section Handlers.
(** [String.prototype.trim] *)
Variable trim : string -> string.

Definition handleCreateProject (form : Form) (fetch : Fetch Project.t)
    (st : State) : Form * State :=
  if decide (trim (newProjectName form) <> ""
             /\ (0 < length (selectedPlatforms form))%nat)
  then
    let '(st, success) :=
      addProject (newProjectName form) (Some (newProjectDescription form))
        (selectedPlatforms form) fetch st in
    match success with
    | Some _ =>
        ({| isModalOpen := false; newProjectName := "";
            newProjectDescription := ""; selectedPlatforms := [] |}, st)
    | None => (form, st)
    end
  else (form, st).
End Handlers.
End DashboardPage.

(** ** MockDownloadPage *)

Module MockDownloadPage.


(** [v.id]: an [AppVersion] has the property [_id] and none called [id], so
    that the read gives [undefined]. *)
Definition id (v : AppVersion.t) : option string := None.



End MockDownloadPage.

(** ** Dates

    [Date.prototype.getTime] on the format of [Date.prototype.toISOString],
    [YYYY-MM-DDTHH:mm:ss.sssZ], which is what the backend stores: the
    milliseconds since 1970-01-01T00:00:00.000Z.  It instantiates the
    parameter [getTime] of the container on concrete records. *)
Module IsoDate.
Definition digit (c : ascii) : option Z :=
  let n := Z.of_nat (nat_of_ascii c) - 48 in
  if (0 <=? n) && (n <=? 9) then Some n else None.

Fixpoint number_from (acc : Z) (s : string) : option Z :=
  match s with
  | EmptyString => Some acc
  | String c s' => d ← digit c; number_from (10 * acc + d) s'
  end.

Definition number (s : string) (start len : nat) : option Z :=
  let part := substring start len s in
  if decide (String.length part = len) then number_from 0 part else None.

(** Days from 1970-01-01 to the given day of the proleptic Gregorian
    calendar. *)
Definition days_from_civil (y m d : Z) : Z :=
  let y := if m <=? 2 then y - 1 else y in
  let era := y / 400 in
  let yoe := y - era * 400 in
  let mp := (m + 9) mod 12 in
  let doy := (153 * mp + 2) / 5 + d - 1 in
  let doe := yoe * 365 + yoe / 4 - yoe / 100 + doy in
  era * 146097 + doe - 719468.

Definition parse (s : string) : option Z :=
  if decide (String.length s = 24%nat
             /\ substring 4 1 s = "-" /\ substring 7 1 s = "-"
             /\ substring 10 1 s = "T" /\ substring 13 1 s = ":"
             /\ substring 16 1 s = ":" /\ substring 19 1 s = "."
             /\ substring 23 1 s = "Z")
  then
    y ← number s 0 4; m ← number s 5 2; d ← number s 8 2;
    hh ← number s 11 2; mm ← number s 14 2; ss ← number s 17 2;
    ms ← number s 20 3;
    if (1 <=? m) && (m <=? 12) && (1 <=? d) && (d <=? 31)
       && (hh <=? 23) && (mm <=? 59) && (ss <=? 59)
    then Some ((((days_from_civil y m d * 24 + hh) * 60 + mm) * 60 + ss) * 1000 + ms)
    else None
  else None.

(** Strings outside the format are outside the embedding (see
    [getTime]); on them this function is 0. *)
Definition getTime (s : string) : Z := default 0 (parse s).
End IsoDate.

(** ** Strings

    [String.prototype.trim] on strings of ASCII characters: it strips the
    tab, the line feed, the vertical tab, the form feed, the carriage
    return and the space at both ends.  It instantiates the parameter
    [trim] of the page handlers on concrete forms. *)
Module AsciiString.
Definition is_space (c : ascii) : bool :=
  let n := nat_of_ascii c in
  ((9 <=? n)%nat && (n <=? 13)%nat) || (n =? 32)%nat.

Fixpoint trimStart (s : string) : string :=
  match s with
  | EmptyString => EmptyString
  | String c s' => if is_space c then trimStart s' else s
  end.

Definition trim (s : string) : string :=
  String.rev (trimStart (String.rev (trimStart s))).
End AsciiString.

(** ** What the operations keep *)

Definition projectIds (st : State) : list string :=
  Project._id <$> projects st.

Definition versionIds (p : Project.t) : list string :=
  AppVersion._id <$> Project.versions p.

(** The exchange of an operation ends with the status [status], outside
    200-299, and a body whose [message] is [msg]. *)
Definition status_failed (op : Operation) (status : Z) (msg : option string) : Prop :=
  ¬ (200 <= status <= 299) /\
  match op with
  | OpFetchProjects fetch =>
      exists b, fetch (request_of op) = Return (mkResponse status (Return b))
                /\ message b = msg
  | OpAddProject _ _ _ fetch =>
      exists b, fetch (request_of op) = Return (mkResponse status (Return b))
                /\ message b = msg
  | OpDeleteProject _ fetch =>
      exists b, fetch (request_of op) = Return (mkResponse status (Return b))
                /\ message b = msg
  | OpUpdateProjectDetails _ _ _ _ fetch =>
      exists b, fetch (request_of op) = Return (mkResponse status (Return b))
                /\ message b = msg
  | OpAddAppVersion _ _ _ fetch =>
      exists b, fetch (request_of op) = Return (mkResponse status (Return b))
                /\ message b = msg
  | OpDeleteAppVersion _ _ fetch =>
      exists b, fetch (request_of op) = Return (mkResponse status (Return b))
                /\ message b = msg
  | OpUpdateVersionEnvironments _ _ _ fetch =>
      exists b, fetch (request_of op) = Return (mkResponse status (Return b))
                /\ message b = msg
  end.

(** ** Backends and a cache to run the operations on *)

(** A backend that answers every request with the same status and body. *)
Definition respond {D} (status : Z) (b : Body D) : Fetch D :=
  fun _ => Return (mkResponse status (Return b)).

(** A backend that cannot be reached: [fetch] rejects. *)
Definition unreachable {D} : Fetch D :=
  fun _ => Throw "Failed to fetch".

(** A backend that answers with something that is not JSON. *)
Definition garbled {D} (status : Z) : Fetch D :=
  fun _ => Return (mkResponse status (Throw "Unexpected token < in JSON at position 0")).

(** A backend for the environments endpoint that stores the set it is sent
    in the version [v] and answers with that record. *)
Definition storesEnvironments (v : AppVersion.t) : Fetch AppVersion.t :=
  fun request =>
    match body request with
    | EnvironmentsJson activeEnvironments =>
        Return (mkResponse 200
          (Return (mkBody None
             (AppVersion.with_activeEnvironments v activeEnvironments))))
    | _ =>
        Return (mkResponse 400 (Return (mkBody (Some "Bad request") v)))
    end.

Module Scenario.
(** Project P with two Android builds: V1 is active in Staging, V2, the
    later upload, is active nowhere. *)
Definition V1 : AppVersion.t :=
  {| AppVersion._id := "V1"; AppVersion.platform := Android;
     AppVersion.versionName := "1.0.0"; AppVersion.buildNumber := "1";
     AppVersion.fileName := "app-1.0.0.apk"; AppVersion.fileSize := "12.0 MB";
     AppVersion.uploadDate := "2024-01-01T00:00:00.000Z";
     AppVersion.releaseNotes := None;
     AppVersion.downloadUrl := "http://localhost:3000/uploads/app-1.0.0.apk";
     AppVersion.qrCodeValue := "http://localhost:3000/uploads/app-1.0.0.apk";
     AppVersion.filePath := "uploads/app-1.0.0.apk";
     AppVersion.activeEnvironments := [Staging] |}.

Definition V2 : AppVersion.t :=
  {| AppVersion._id := "V2"; AppVersion.platform := Android;
     AppVersion.versionName := "1.1.0"; AppVersion.buildNumber := "2";
     AppVersion.fileName := "app-1.1.0.apk"; AppVersion.fileSize := "12.5 MB";
     AppVersion.uploadDate := "2024-01-02T00:00:00.000Z";
     AppVersion.releaseNotes := None;
     AppVersion.downloadUrl := "http://localhost:3000/uploads/app-1.1.0.apk";
     AppVersion.qrCodeValue := "http://localhost:3000/uploads/app-1.1.0.apk";
     AppVersion.filePath := "uploads/app-1.1.0.apk";
     AppVersion.activeEnvironments := [] |}.

(** An upload the backend stamps later than V1 and V2, and one it stamps
    earlier than both. *)
Definition V3 : AppVersion.t :=
  {| AppVersion._id := "V3"; AppVersion.platform := Android;
     AppVersion.versionName := "1.2.0"; AppVersion.buildNumber := "3";
     AppVersion.fileName := "app-1.2.0.apk"; AppVersion.fileSize := "13.0 MB";
     AppVersion.uploadDate := "2024-01-03T00:00:00.000Z";
     AppVersion.releaseNotes := Some "Fixes.";
     AppVersion.downloadUrl := "http://localhost:3000/uploads/app-1.2.0.apk";
     AppVersion.qrCodeValue := "http://localhost:3000/uploads/app-1.2.0.apk";
     AppVersion.filePath := "uploads/app-1.2.0.apk";
     AppVersion.activeEnvironments := [] |}.

Definition V0 : AppVersion.t :=
  {| AppVersion._id := "V0"; AppVersion.platform := Android;
     AppVersion.versionName := "0.9.0"; AppVersion.buildNumber := "0";
     AppVersion.fileName := "app-0.9.0.apk"; AppVersion.fileSize := "11.0 MB";
     AppVersion.uploadDate := "2023-12-31T00:00:00.000Z";
     AppVersion.releaseNotes := None;
     AppVersion.downloadUrl := "http://localhost:3000/uploads/app-0.9.0.apk";
     AppVersion.qrCodeValue := "http://localhost:3000/uploads/app-0.9.0.apk";
     AppVersion.filePath := "uploads/app-0.9.0.apk";
     AppVersion.activeEnvironments := [] |}.

Definition P : Project.t :=
  {| Project._id := "P"; Project.name := "Shop";
     Project.description := Some "The shop app";
     Project.createdAt := "2023-12-01T00:00:00.000Z";
     Project.platforms := [Android; iOS];
     Project.versions := [V2; V1];
     Project.rnPlatforms := None; Project.bundleUpdates := None |}.

Definition Q : Project.t :=
  {| Project._id := "Q"; Project.name := "Courier";
     Project.description := None;
     Project.createdAt := "2023-12-05T00:00:00.000Z";
     Project.platforms := [iOS];
     Project.versions := [];
     Project.rnPlatforms := None; Project.bundleUpdates := None |}.

Definition cache : State :=
  {| projects := [P; Q]; loading := false; error := None |}.

Definition upload : VersionData.t :=
  {| VersionData.platform := Android; VersionData.versionName := "1.2.0";
     VersionData.buildNumber := "3"; VersionData.fileName := "app-1.2.0.apk";
     VersionData.releaseNotes := Some "Fixes." |}.

Definition apk : File.t :=
  {| File.name := "app-1.2.0.apk"; File.size := 13631488;
     File.type := "application/vnd.android.package-archive" |}.
End Scenario.

(** * Properties *)

(** ** JavaScript's [||] on strings *)

Lemma str_or_nonempty (s dflt : string) : dflt <> "" -> str_or s dflt <> "".
Proof. unfold str_or. case_decide; congruence. Qed.

Lemma str_or_truthy (s dflt : string) : s <> "" -> str_or s dflt = s.
Proof. unfold str_or. case_decide; congruence. Qed.

(** ** The exchange: every outcome is a failure or a success, and
    [handleApiResponse] throws exactly on the failures. *)

Lemma ok_spec {D} (response : Response D) :
  ok response = true <-> 200 <= status response <= 299.
Proof. unfold ok. rewrite andb_true_iff, !Z.leb_le. tauto. Qed.

Lemma Failure_or_Success {D} (c : Completion (Response D)) :
  Failure c \/ exists b, Success c b.
Proof.
  destruct c as [[st [b | m]] | m].
  - destruct (decide (200 <= st <= 299)).
    + right. exists b. by constructor.
    + left. by constructor.
  - left. constructor.
  - left. constructor.
Qed.

Lemma Failure_not_Success {D} (c : Completion (Response D)) b :
  Failure c -> Success c b -> False.
Proof. intros Hf Hs. destruct Hs. inversion Hf; subst. tauto. Qed.

Lemma exchange_Success {D} (c : Completion (Response D)) b :
  Success c b -> (response ← c; handleApiResponse response) = Return b.
Proof.
  intros [st b' Hst]. cbn. unfold handleApiResponse. cbn.
  assert (ok (mkResponse st (Return b')) = true) as -> by by apply ok_spec.
  reflexivity.
Qed.

Lemma exchange_Failure {D} (c : Completion (Response D)) :
  Failure c -> exists m, (response ← c; handleApiResponse response) = Throw m.
Proof.
  intros [m | st m | st b Hst]; cbn; unfold handleApiResponse; cbn; eauto.
  assert (ok (mkResponse st (Return b)) = false) as ->.
  { apply not_true_is_false. by rewrite ok_spec. }
  cbn. eauto.
Qed.

(** The message of a failure status: the body's [message] if it has a
    non-empty one, else the status in words. *)
Lemma exchange_status_message {D} st (b : Body D) :
  ¬ (200 <= st <= 299) ->
  (response ← Return (mkResponse st (Return b)); handleApiResponse response)
  = Throw (opt_str_or (message b) ("HTTP error! status: " +:+ pretty st)).
Proof.
  intros Hst. cbn. unfold handleApiResponse. cbn.
  assert (ok (mkResponse st (Return b)) = false) as ->.
  { apply not_true_is_false. by rewrite ok_spec. }
  reflexivity.
Qed.

(** The embedding at work on the backends above. *)

Example handleApiResponse_message :
  handleApiResponse (mkResponse 404 (Return (mkBody (Some "Project not found") tt)))
  = Throw "Project not found".
Proof. reflexivity. Qed.

Example handleApiResponse_status :
  handleApiResponse (mkResponse 500 (Return (mkBody (Some "") tt)))
  = Throw "HTTP error! status: 500".
Proof. reflexivity. Qed.

Example fetchProjects_unreachable :
  fetchProjects unreachable Scenario.cache
  = ({| projects := []; loading := false; error := Some "Failed to fetch" |}, tt).
Proof. reflexivity. Qed.

Example deleteProject_garbled :
  deleteProject "P" (garbled 200) Scenario.cache
  = ({| projects := [Scenario.P; Scenario.Q]; loading := false;
        error := Some "Unexpected token < in JSON at position 0" |}, false).
Proof. reflexivity. Qed.

Example addProject_appends :
  addProject "Courier" None [iOS] (respond 201 (mkBody None Scenario.Q))
    {| projects := [Scenario.P]; loading := false; error := Some "stale" |}
  = ({| projects := [Scenario.P; Scenario.Q]; loading := false; error := None |},
     Some Scenario.Q).
Proof. reflexivity. Qed.

Example uploadDate_V1 :
  IsoDate.parse (AppVersion.uploadDate Scenario.V1) = Some 1704067200000.
Proof. reflexivity. Qed.

Example uploadDate_leap_day :
  IsoDate.parse "2000-02-29T12:34:56.789Z" = Some 951827696789.
Proof. reflexivity. Qed.

Example sort_by_upload :
  AppVersion._id <$>
    Array_sort (byUploadDateDesc IsoDate.getTime)
      [Scenario.V1; Scenario.V3; Scenario.V0; Scenario.V2]
  = ["V3"; "V2"; "V1"; "V0"].
Proof. reflexivity. Qed.

(** ** Array.prototype.sort *)

Section ArraySortFacts.
Context {A : Type} (comparefn : A -> A -> Z).

Lemma sort_insert_Permutation x l : sort_insert comparefn x l ≡ₚ x :: l.
Proof.
  induction l as [| y l IH]; cbn; [done |].
  case_decide; [done |]. rewrite IH. apply Permutation_swap.
Qed.

Lemma Array_sort_Permutation l : Array_sort comparefn l ≡ₚ l.
Proof.
  induction l as [| x l IH]; cbn; [done |].
  by rewrite sort_insert_Permutation, IH.
Qed.

(** An element that may stand in front of all of [l] is put there. *)
Lemma sort_insert_front x l :
  Forall (before comparefn x) l -> sort_insert comparefn x l = x :: l.
Proof.
  destruct l as [| y l]; cbn; [done |].
  intros Hall. apply Forall_cons in Hall as [Hy _].
  unfold before in Hy. by case_decide.
Qed.

Lemma Array_sort_front x l :
  Forall (before comparefn x) l ->
  Array_sort comparefn (x :: l) = x :: Array_sort comparefn l.
Proof.
  intros Hall. cbn. apply sort_insert_front.
  by rewrite Array_sort_Permutation.
Qed.

Lemma sort_insert_HdRel x y l :
  before comparefn y x -> HdRel (before comparefn) y l ->
  HdRel (before comparefn) y (sort_insert comparefn x l).
Proof.
  intros Hyx Hyl. destruct l as [| z l]; cbn; [by constructor |].
  case_decide; constructor; [done |]. by inversion Hyl.
Qed.

(** The comparator of a sort is a difference: when [x] has to follow [y],
    [y] may stand in front of [x]. *)
Hypothesis comparefn_total :
  forall x y, before comparefn x y \/ before comparefn y x.

Lemma sort_insert_Sorted x l :
  Sorted (before comparefn) l -> Sorted (before comparefn) (sort_insert comparefn x l).
Proof.
  induction 1 as [| y l Hl IH Hy]; cbn.
  - by repeat constructor.
  - case_decide as Hxy.
    + repeat constructor; done.
    + constructor; [done |]. apply sort_insert_HdRel; [| done].
      destruct (comparefn_total x y); [done | done].
Qed.

Lemma Array_sort_Sorted l : Sorted (before comparefn) (Array_sort comparefn l).
Proof.
  induction l as [| x l IH]; cbn; [constructor |].
  by apply sort_insert_Sorted.
Qed.

(** A sorted array is left as it is. *)
Lemma Array_sort_Sorted_id l : Sorted (before comparefn) l -> Array_sort comparefn l = l.
Proof.
  induction 1 as [| x l Hl IH Hx]; cbn; [done |].
  rewrite IH. destruct Hx as [| y l Hxy]; cbn; [done |].
  unfold before in Hxy. by case_decide.
Qed.
End ArraySortFacts.

(** ** The operations, outcome by outcome

    On a success an operation ends with [loading = false], [error = null]
    and the reconciled cache; on a failure with the cache it found (empty
    for [fetchProjects]) and the message that was thrown, or its own
    message when that one is empty. *)

Ltac unfold_operation :=
  cbv beta delta [fetchProjects addProject deleteProject updateProjectDetails
                  addAppVersion deleteAppVersion updateVersionEnvironments] zeta.

Ltac exchange_success H :=
  cbn [request_of] in H; unfold_operation;
  rewrite (exchange_Success _ _ H); reflexivity.

Ltac exchange_failure H :=
  let m := fresh "m" in
  let Hm := fresh "Hm" in
  cbn [request_of] in H;
  destruct (exchange_Failure _ H) as [m Hm]; exists m;
  unfold_operation; rewrite Hm; reflexivity.

Section Outcomes.
Variable getTime : string -> Z.
Variable st : State.

Lemma fetchProjects_Success fetch b :
  Success (fetch (request_of (OpFetchProjects fetch))) b ->
  fetchProjects fetch st
  = ({| projects := field_or (data b) []; loading := false; error := None |}, tt).
Proof. intros H. exchange_success H. Qed.

Lemma fetchProjects_Failure fetch :
  Failure (fetch (request_of (OpFetchProjects fetch))) ->
  exists m, fetchProjects fetch st
  = ({| projects := []; loading := false;
        error := Some (str_or m "Failed to fetch projects.") |}, tt).
Proof. intros H. exchange_failure H. Qed.

Lemma addProject_Success name description platforms fetch b :
  Success (fetch (request_of (OpAddProject name description platforms fetch))) b ->
  addProject name description platforms fetch st
  = ({| projects := projects st ++ [data b]; loading := false; error := None |},
     Some (data b)).
Proof. intros H. exchange_success H. Qed.

Lemma addProject_Failure name description platforms fetch :
  Failure (fetch (request_of (OpAddProject name description platforms fetch))) ->
  exists m, addProject name description platforms fetch st
  = ({| projects := projects st; loading := false;
        error := Some (str_or m "Failed to add project.") |}, None).
Proof. intros H. exchange_failure H. Qed.

Lemma deleteProject_Success projectId fetch b :
  Success (fetch (request_of (OpDeleteProject projectId fetch))) b ->
  deleteProject projectId fetch st
  = ({| projects := filter (fun p => Project._id p <> projectId) (projects st);
        loading := false; error := None |}, true).
Proof. intros H. exchange_success H. Qed.

Lemma deleteProject_Failure projectId fetch :
  Failure (fetch (request_of (OpDeleteProject projectId fetch))) ->
  exists m, deleteProject projectId fetch st
  = ({| projects := projects st; loading := false;
        error := Some (str_or m "Failed to delete project.") |}, false).
Proof. intros H. exchange_failure H. Qed.

Lemma updateProjectDetails_Success projectId name description platforms fetch b :
  Success (fetch (request_of
             (OpUpdateProjectDetails projectId name description platforms fetch))) b ->
  updateProjectDetails projectId name description platforms fetch st
  = ({| projects := (fun p => if decide (Project._id p = projectId)
                              then data b else p) <$> projects st;
        loading := false; error := None |}, Some (data b)).
Proof. intros H. exchange_success H. Qed.

Lemma updateProjectDetails_Failure projectId name description platforms fetch :
  Failure (fetch (request_of
             (OpUpdateProjectDetails projectId name description platforms fetch))) ->
  exists m, updateProjectDetails projectId name description platforms fetch st
  = ({| projects := projects st; loading := false;
        error := Some (str_or m "Failed to update project.") |}, None).
Proof. intros H. exchange_failure H. Qed.

Lemma addAppVersion_Success projectId versionData file fetch b :
  Success (fetch (request_of (OpAddAppVersion projectId versionData file fetch))) b ->
  addAppVersion getTime projectId versionData file fetch st
  = ({| projects :=
          (fun p => if decide (Project._id p = projectId)
                    then Project.with_versions p
                           (Array_sort (byUploadDateDesc getTime)
                              (data b :: Project.versions p))
                    else p) <$> projects st;
        loading := false; error := None |}, Some (data b)).
Proof. intros H. exchange_success H. Qed.

Lemma addAppVersion_Failure projectId versionData file fetch :
  Failure (fetch (request_of (OpAddAppVersion projectId versionData file fetch))) ->
  exists m, addAppVersion getTime projectId versionData file fetch st
  = ({| projects := projects st; loading := false;
        error := Some (str_or m "Failed to add app version.") |}, None).
Proof. intros H. exchange_failure H. Qed.

Lemma deleteAppVersion_Success projectId versionId fetch b :
  Success (fetch (request_of (OpDeleteAppVersion projectId versionId fetch))) b ->
  deleteAppVersion projectId versionId fetch st
  = ({| projects :=
          (fun p => if decide (Project._id p = projectId)
                    then Project.with_versions p
                           (filter (fun v => AppVersion._id v <> versionId)
                                   (Project.versions p))
                    else p) <$> projects st;
        loading := false; error := None |}, true).
Proof. intros H. exchange_success H. Qed.

Lemma deleteAppVersion_Failure projectId versionId fetch :
  Failure (fetch (request_of (OpDeleteAppVersion projectId versionId fetch))) ->
  exists m, deleteAppVersion projectId versionId fetch st
  = ({| projects := projects st; loading := false;
        error := Some (str_or m "Failed to delete app version.") |}, false).
Proof. intros H. exchange_failure H. Qed.

Lemma updateVersionEnvironments_Success projectId versionId envs fetch b :
  Success (fetch (request_of
             (OpUpdateVersionEnvironments projectId versionId envs fetch))) b ->
  updateVersionEnvironments projectId versionId envs fetch st
  = ({| projects :=
          (fun p => if decide (Project._id p = projectId)
                    then Project.with_versions p
                           ((fun v => if decide (AppVersion._id v = versionId)
                                      then data b else v) <$> Project.versions p)
                    else p) <$> projects st;
        loading := false; error := None |}, Some (data b)).
Proof. intros H. exchange_success H. Qed.

Lemma updateVersionEnvironments_Failure projectId versionId envs fetch :
  Failure (fetch (request_of
             (OpUpdateVersionEnvironments projectId versionId envs fetch))) ->
  exists m, updateVersionEnvironments projectId versionId envs fetch st
  = ({| projects := projects st; loading := false;
        error := Some (str_or m "Failed to update version environments.") |}, None).
Proof. intros H. exchange_failure H. Qed.
End Outcomes.

(** ** fetchProjects *)

(** C6. After [fetchProjects()] succeeds (2xx, a body that decodes and
    carries the array [data]), the cached list is exactly the array the
    server returned, in the server's order: nothing is sorted, filtered or
    merged, whatever the cache held before. The operation ends with
    [loading = false] and [error = null]. *)
Theorem fetchProjects_replaces_cache fetch st b l :
  Success (fetch (request_of (OpFetchProjects fetch))) b ->
  data b = Present l ->
  fetchProjects fetch st
  = ({| projects := l; loading := false; error := None |}, tt).
Proof.
  intros Hok Hdata. rewrite (fetchProjects_Success st fetch b Hok).
  by rewrite Hdata.
Qed.

Lemma fetchProjects_replaces_cache_witness :
  let b := mkBody None (Present [Scenario.Q; Scenario.P]) in
  Success (respond 200 b (request_of (OpFetchProjects (respond 200 b)))) b /\
  data b = Present [Scenario.Q; Scenario.P] /\
  fetchProjects (respond 200 b) Scenario.cache
  = ({| projects := [Scenario.Q; Scenario.P]; loading := false; error := None |}, tt).
Proof.
  intros b.
  assert (Success (respond 200 b (request_of (OpFetchProjects (respond 200 b)))) b)
    as Hok by (constructor; lia).
  split; [exact Hok |]. split; [reflexivity |].
  exact (fetchProjects_replaces_cache (respond 200 b) Scenario.cache b
           [Scenario.Q; Scenario.P] Hok eq_refl).
Defined.

(** C10. A 2xx response whose body decodes but has no usable [data]
    (the property is missing, [null], or another falsy value) counts as a
    success: the cache becomes the empty list and [error] stays [null]; no
    malformed-response failure is reported. *)
Theorem fetchProjects_without_data fetch st b :
  Success (fetch (request_of (OpFetchProjects fetch))) b ->
  data b = Absent \/ data b = JsonNull \/ data b = JsonFalsy ->
  fetchProjects fetch st
  = ({| projects := []; loading := false; error := None |}, tt).
Proof.
  intros Hok Hdata. rewrite (fetchProjects_Success st fetch b Hok).
  by destruct Hdata as [-> | [-> | ->]].
Qed.

Lemma fetchProjects_without_data_witness :
  let b : Body (Field (list Project.t)) := mkBody None Absent in
  Success (respond 200 b (request_of (OpFetchProjects (respond 200 b)))) b /\
  fetchProjects (respond 200 b) Scenario.cache
  = ({| projects := []; loading := false; error := None |}, tt).
Proof.
  intros b.
  assert (Success (respond 200 b (request_of (OpFetchProjects (respond 200 b)))) b)
    as Hok by (constructor; lia).
  split; [exact Hok |].
  exact (fetchProjects_without_data (respond 200 b) Scenario.cache b Hok
           (or_introl eq_refl)).
Defined.

(** ** deleteProject *)

(** C7. After a successful [deleteProject(projectId)] no cached project
    has the identifier [projectId]; the new cache is the old one, in its
    order, without the entries that were dropped, and every dropped entry
    had that identifier, so that every project with another identifier is
    kept as it was; the call returns [true]. On a failure it returns
    [false] (and the cache is the one it found). *)
Theorem deleteProject_removes_by_identity projectId fetch st :
  let outcome := fetch (request_of (OpDeleteProject projectId fetch)) in
  let st' := fst (deleteProject projectId fetch st) in
  let result := snd (deleteProject projectId fetch st) in
  (forall b, Success outcome b ->
     result = true /\
     Forall (fun p => Project._id p <> projectId) (projects st') /\
     projects st' `sublist_of` projects st /\
     (exists dropped,
        projects st ≡ₚ projects st' ++ dropped /\
        Forall (fun p => Project._id p = projectId) dropped) /\
     (forall p, p ∈ projects st -> Project._id p <> projectId -> p ∈ projects st')) /\
  (Failure outcome -> result = false /\ projects st' = projects st).
Proof.
  cbv zeta. split.
  - intros b Hok. rewrite (deleteProject_Success st projectId fetch b Hok). cbn.
    split; [done |]. split; [| split; [| split]].
    + apply Forall_forall. intros p Hp. by apply list_elem_of_filter in Hp as [? _].
    + apply sublist_filter.
    + exists (filter (fun p => ¬ Project._id p <> projectId) (projects st)). split.
      * symmetry. apply filter_app_complement.
      * apply Forall_forall. intros p Hp.
        apply list_elem_of_filter in Hp as [Hp _].
        by destruct (decide (Project._id p = projectId)).
    + intros p Hp Hne. by apply list_elem_of_filter.
  - intros Hfail.
    destruct (deleteProject_Failure st projectId fetch Hfail) as [m ->]. done.
Qed.

Lemma deleteProject_removes_by_identity_witness :
  Success (respond 200 (mkBody None tt)
             (request_of (OpDeleteProject "P" (respond 200 (mkBody None tt)))))
          (mkBody None tt) /\
  snd (deleteProject "P" (respond 200 (mkBody None tt)) Scenario.cache) = true /\
  Forall (fun p => Project._id p <> "P")
    (projects (fst (deleteProject "P" (respond 200 (mkBody None tt)) Scenario.cache))).
Proof.
  assert (Success (respond 200 (mkBody None tt)
             (request_of (OpDeleteProject "P" (respond 200 (mkBody None tt)))))
          (mkBody None tt)) as Hok by (constructor; lia).
  split; [exact Hok |].
  destruct (proj1 (deleteProject_removes_by_identity "P"
                     (respond 200 (mkBody None tt)) Scenario.cache) _ Hok)
    as (Hret & Hnone & _).
  split; [exact Hret | exact Hnone].
Defined.

(** ** getProjectById *)

(** C8. [getProjectById] is a lookup in the cache it is given and nothing
    else (it has no network among its arguments and returns no state): it
    is [undefined] exactly when no cached project has the identifier,
    otherwise it is the first cached project with that identifier; and it
    depends on the cached list only, so that two calls between which the
    list did not change return the same data. *)
Theorem getProjectById_pure_lookup st projectId :
  (getProjectById st projectId = None <->
   forall p, p ∈ projects st -> Project._id p <> projectId) /\
  (forall p, getProjectById st projectId = Some p ->
     Project._id p = projectId /\
     exists i, projects st !! i = Some p /\
       forall j q, projects st !! j = Some q -> (j < i)%nat ->
                   Project._id q <> projectId) /\
  (forall st', projects st' = projects st ->
     getProjectById st' projectId = getProjectById st projectId).
Proof.
  unfold getProjectById. split; [| split].
  - rewrite fmap_None, list_find_None, Forall_forall. done.
  - intros p Hp. apply fmap_Some in Hp as [[i p'] [Hfind ->]].
    apply list_find_Some in Hfind as (Hi & Hid & Hfirst). eauto.
  - by intros st' ->.
Qed.

Lemma getProjectById_pure_lookup_witness :
  projects (setLoading true Scenario.cache) = projects Scenario.cache /\
  getProjectById (setLoading true Scenario.cache) "Q"
  = getProjectById Scenario.cache "Q".
Proof.
  split; [reflexivity |].
  exact (proj2 (proj2 (getProjectById_pure_lookup Scenario.cache "Q"))
           (setLoading true Scenario.cache) eq_refl).
Defined.

(** ** Reconciling one project of the cache *)

(** Rewriting the projects with the identifier [projectId] leaves a cache
    without such a project as it is. *)
Lemma reconcile_no_match (f : Project.t -> Project.t) projectId (ps : list Project.t) :
  (forall p, p ∈ ps -> Project._id p <> projectId) ->
  (fun p => if decide (Project._id p = projectId) then f p else p) <$> ps = ps.
Proof.
  intros Hno. rewrite <- (list_fmap_id ps) at 2.
  apply list_fmap_ext. intros i p Hp. unfold id.
  case_decide as Hid; [| done].
  exfalso. eapply Hno; [| exact Hid]. by eapply list_elem_of_lookup_2.
Qed.

(** Position by position: the project at position [i] is rewritten if it
    has the identifier and kept otherwise. *)
Lemma reconcile_lookup (f : Project.t -> Project.t) projectId (ps : list Project.t) i p :
  ps !! i = Some p ->
  ((fun p => if decide (Project._id p = projectId) then f p else p) <$> ps) !! i
  = Some (if decide (Project._id p = projectId) then f p else p).
Proof. intros Hp. by rewrite list_lookup_fmap, Hp. Qed.

(** ** updateVersionEnvironments *)

(** C5. After a successful [updateVersionEnvironments(projectId, versionId,
    envs)] the call returns the record of the response, and the cache
    differs from the old one in this only: in a project with the identifier
    [projectId], a version with the identifier [versionId] is replaced by
    that record, so that its stored set of active environments is the one
    the server confirmed. Every other version of every project is the
    record it was, at the position it had, and every project keeps its
    position and all its fields other than [versions]. *)
Theorem updateVersionEnvironments_frame projectId versionId envs fetch st b :
  Success (fetch (request_of
             (OpUpdateVersionEnvironments projectId versionId envs fetch))) b ->
  let st' := fst (updateVersionEnvironments projectId versionId envs fetch st) in
  snd (updateVersionEnvironments projectId versionId envs fetch st) = Some (data b) /\
  loading st' = false /\ error st' = None /\
  length (projects st') = length (projects st) /\
  forall i p, projects st !! i = Some p ->
    exists p', projects st' !! i = Some p' /\
      p' = Project.with_versions p (Project.versions p') /\
      length (Project.versions p') = length (Project.versions p) /\
      forall j v, Project.versions p !! j = Some v ->
        exists v', Project.versions p' !! j = Some v' /\
          (Project._id p = projectId -> AppVersion._id v = versionId ->
             v' = data b /\
             AppVersion.activeEnvironments v'
             = AppVersion.activeEnvironments (data b)) /\
          (Project._id p <> projectId \/ AppVersion._id v <> versionId -> v' = v).
Proof.
  intros Hok. rewrite (updateVersionEnvironments_Success st _ _ _ _ b Hok). cbn.
  split; [done |]. split; [done |]. split; [done |].
  split; [by rewrite length_fmap |].
  intros i p Hp. rewrite (reconcile_lookup _ _ _ _ _ Hp).
  case_decide as Hid.
  - eexists. split; [done |]. cbn. split; [by destruct p |].
    split; [by rewrite length_fmap |].
    intros j v Hv. rewrite list_lookup_fmap, Hv. cbn.
    eexists. split; [done |]. split.
    + intros _ Hvid. by rewrite decide_True.
    + intros [Hne | Hne]; [done |]. by rewrite decide_False.
  - exists p. split; [done |]. split; [by destruct p |]. split; [done |].
    intros j v Hv. exists v. split; [done |]. split; [done | done].
Qed.

Lemma updateVersionEnvironments_frame_witness :
  let fetch := storesEnvironments Scenario.V2 in
  let b := mkBody None (AppVersion.with_activeEnvironments Scenario.V2 [Staging]) in
  Success (fetch (request_of (OpUpdateVersionEnvironments "P" "V2" [Staging] fetch))) b /\
  snd (updateVersionEnvironments "P" "V2" [Staging] fetch Scenario.cache)
  = Some (AppVersion.with_activeEnvironments Scenario.V2 [Staging]).
Proof.
  intros fetch b.
  assert (Success (fetch (request_of
            (OpUpdateVersionEnvironments "P" "V2" [Staging] fetch))) b)
    as Hok by (constructor; lia).
  split; [exact Hok |].
  exact (proj1 (updateVersionEnvironments_frame "P" "V2" [Staging] fetch
                  Scenario.cache b Hok)).
Defined.

(** ** A success of the server for a project the cache does not hold *)

(** C9. When no cached project has the identifier [projectId], a success
    of the server makes [addAppVersion] and [updateVersionEnvironments]
    return the record of the response and [deleteAppVersion] return [true],
    while the cached list is the one the operation found: the value
    returned does not tell that the cache was updated. *)
Theorem success_without_cached_project getTime projectId st :
  (forall p, p ∈ projects st -> Project._id p <> projectId) ->
  let unchanged := {| projects := projects st; loading := false; error := None |} in
  (forall versionData file fetch b,
     Success (fetch (request_of (OpAddAppVersion projectId versionData file fetch))) b ->
     addAppVersion getTime projectId versionData file fetch st
     = (unchanged, Some (data b))) /\
  (forall versionId fetch b,
     Success (fetch (request_of (OpDeleteAppVersion projectId versionId fetch))) b ->
     deleteAppVersion projectId versionId fetch st = (unchanged, true)) /\
  (forall versionId envs fetch b,
     Success (fetch (request_of
                (OpUpdateVersionEnvironments projectId versionId envs fetch))) b ->
     updateVersionEnvironments projectId versionId envs fetch st
     = (unchanged, Some (data b))).
Proof.
  intros Hno unchanged. subst unchanged. split; [| split].
  - intros versionData file fetch b Hok.
    rewrite (addAppVersion_Success getTime st _ _ _ _ b Hok).
    by rewrite (reconcile_no_match _ _ _ Hno).
  - intros versionId fetch b Hok.
    rewrite (deleteAppVersion_Success st _ _ _ b Hok).
    by rewrite (reconcile_no_match _ _ _ Hno).
  - intros versionId envs fetch b Hok.
    rewrite (updateVersionEnvironments_Success st _ _ _ _ b Hok).
    by rewrite (reconcile_no_match _ _ _ Hno).
Qed.

Lemma success_without_cached_project_witness :
  let fetch := respond 201 (mkBody None Scenario.V3) in
  (forall p, p ∈ projects Scenario.cache -> Project._id p <> "R") /\
  Success (fetch (request_of
             (OpAddAppVersion "R" Scenario.upload Scenario.apk fetch)))
          (mkBody None Scenario.V3) /\
  addAppVersion IsoDate.getTime "R" Scenario.upload Scenario.apk fetch Scenario.cache
  = (Scenario.cache, Some Scenario.V3).
Proof.
  intros fetch.
  assert (forall p, p ∈ projects Scenario.cache -> Project._id p <> "R") as Hno.
  { intros p Hp. cbn in Hp. rewrite !elem_of_cons in Hp.
    destruct Hp as [-> | [-> | Hp]]; [done | done | by apply elem_of_nil in Hp]. }
  assert (Success (fetch (request_of
             (OpAddAppVersion "R" Scenario.upload Scenario.apk fetch)))
          (mkBody None Scenario.V3)) as Hok by (constructor; lia).
  split; [exact Hno |]. split; [exact Hok |].
  exact (proj1 (success_without_cached_project IsoDate.getTime "R" Scenario.cache Hno)
           Scenario.upload Scenario.apk fetch (mkBody None Scenario.V3) Hok).
Defined.

(** ** Failures *)

(** C4. Whatever the operation, when its exchange fails (the transport
    fails, the status is not 2xx, or the body does not decode) the cache is
    the one the operation found, except for [fetchProjects], which empties
    it; [error] is a non-empty string, [loading] is [false], and the
    caller gets a falsy value ([undefined], [false] or [null]). The
    operation returns: no exception reaches the caller. *)
Theorem failure_contract getTime op st :
  outcome_failed op ->
  let st' := fst (run getTime op st) in
  projects st' = match op with
                 | OpFetchProjects _ => []
                 | _ => projects st
                 end /\
  (exists m, error st' = Some m /\ m <> "") /\
  loading st' = false /\
  falsy (snd (run getTime op st)) = true.
Proof.
  destruct op; cbn [outcome_failed run]; intros Hfail.
  - destruct (fetchProjects_Failure st _ Hfail) as [m ->]. cbn.
    repeat split; eauto using str_or_nonempty.
  - destruct (addProject_Failure st _ _ _ _ Hfail) as [m ->]. cbn.
    repeat split; eauto using str_or_nonempty.
  - destruct (deleteProject_Failure st _ _ Hfail) as [m ->]. cbn.
    repeat split; eauto using str_or_nonempty.
  - destruct (updateProjectDetails_Failure st _ _ _ _ _ Hfail) as [m ->]. cbn.
    repeat split; eauto using str_or_nonempty.
  - destruct (addAppVersion_Failure getTime st _ _ _ _ Hfail) as [m ->]. cbn.
    repeat split; eauto using str_or_nonempty.
  - destruct (deleteAppVersion_Failure st _ _ _ Hfail) as [m ->]. cbn.
    repeat split; eauto using str_or_nonempty.
  - destruct (updateVersionEnvironments_Failure st _ _ _ _ Hfail) as [m ->]. cbn.
    repeat split; eauto using str_or_nonempty.
Qed.

Lemma failure_contract_witness :
  let op := OpDeleteProject "P" (respond 404 (mkBody (Some "Project not found") tt)) in
  outcome_failed op /\
  projects (fst (run IsoDate.getTime op Scenario.cache)) = projects Scenario.cache /\
  falsy (snd (run IsoDate.getTime op Scenario.cache)) = true.
Proof.
  intros op.
  assert (outcome_failed op) as Hfail by (constructor; lia).
  split; [exact Hfail |].
  destruct (failure_contract IsoDate.getTime op Scenario.cache Hfail)
    as (Hcache & _ & _ & Hret).
  split; [exact Hcache | exact Hret].
Defined.

(** ** addAppVersion *)

Section UploadOrder.
Variable getTime : string -> Z.

Local Notation "'cmp'" := (byUploadDateDesc getTime).
Local Notation "'time'" := (uploadTime getTime).

Lemma byUploadDateDesc_before a b : before cmp a b <-> notOlder getTime a b.
Proof. unfold before, byUploadDateDesc, notOlder. lia. Qed.

Lemma byUploadDateDesc_total a b : before cmp a b \/ before cmp b a.
Proof. rewrite !byUploadDateDesc_before. unfold notOlder. lia. Qed.

Lemma byUploadDateDesc_trans : Transitive (before cmp).
Proof. intros a b c. rewrite !byUploadDateDesc_before. unfold notOlder. lia. Qed.

Lemma notOlder_before l :
  StronglySorted (before cmp) l <-> StronglySorted (notOlder getTime) l.
Proof.
  split; induction 1 as [| x l' Hl' IH Hx]; constructor; try done;
    (eapply Forall_impl; [exact Hx |]); intros y Hy;
    by apply byUploadDateDesc_before.
Qed.

(** The sorted list is in descending order of upload time. *)
Lemma sort_byUploadDateDesc_descending l :
  StronglySorted (notOlder getTime) (Array_sort cmp l).
Proof.
  apply notOlder_before.
  apply (@Sorted_StronglySorted _ _ byUploadDateDesc_trans).
  apply Array_sort_Sorted, byUploadDateDesc_total.
Qed.

(** The sort is stable: the versions of one upload time keep their order. *)
Lemma sort_insert_byUploadDateDesc_stable t x l :
  uploadedAt getTime t (sort_insert cmp x l) = uploadedAt getTime t (x :: l).
Proof.
  unfold uploadedAt.
  induction l as [| y l IH]; cbn [sort_insert]; [done |].
  case_decide as Hxy; [done |].
  unfold byUploadDateDesc in Hxy.
  rewrite (filter_cons _ y), IH, !(filter_cons _ x), (filter_cons _ y).
  repeat case_decide; try done; lia.
Qed.

Lemma sort_byUploadDateDesc_stable t l :
  uploadedAt getTime t (Array_sort cmp l) = uploadedAt getTime t l.
Proof.
  induction l as [| x l IH]; cbn [Array_sort]; [done |].
  rewrite sort_insert_byUploadDateDesc_stable. unfold uploadedAt in *.
  by rewrite !(filter_cons _ x), IH.
Qed.

(** A version that is not older than any of [l] comes first. *)
Lemma sort_byUploadDateDesc_newest x l :
  Forall (notOlder getTime x) l -> Array_sort cmp (x :: l) = x :: Array_sort cmp l.
Proof.
  intros Hall. apply Array_sort_front.
  eapply Forall_impl; [exact Hall |]. intros y Hy. by apply byUploadDateDesc_before.
Qed.

(** A list in descending order of upload time is left as it is. *)
Lemma sort_byUploadDateDesc_descending_id l :
  StronglySorted (notOlder getTime) l -> Array_sort cmp l = l.
Proof.
  intros Hs. by apply Array_sort_Sorted_id, StronglySorted_Sorted, notOlder_before.
Qed.

(** Two lists in descending order that hold, for every upload time, the
    same versions in the same order are the same list. *)
Lemma descending_stable_unique l1 l2 :
  StronglySorted (notOlder getTime) l1 ->
  StronglySorted (notOlder getTime) l2 ->
  (forall t, uploadedAt getTime t l1 = uploadedAt getTime t l2) ->
  l1 = l2.
Proof.
  unfold uploadedAt, notOlder. intros Hs1. revert l2.
  induction Hs1 as [| x l1 Hl1 IH Hx]; intros l2 Hs2 Hsame.
  - destruct l2 as [| y l2]; [done |].
    specialize (Hsame (time y)).
    rewrite filter_cons_True in Hsame by done. discriminate Hsame.
  - destruct Hs2 as [| y l2 Hl2 Hy].
    { specialize (Hsame (time x)).
      rewrite filter_cons_True in Hsame by done. discriminate Hsame. }
    assert (time x <= time y) as Hxy.
    { assert (x ∈ y :: l2) as Hin.
      { pose proof (Hsame (time x)) as Hs.
        rewrite filter_cons_True in Hs by done.
        assert (x ∈ filter (fun v => time v = time x) (y :: l2)) as Hf
          by (rewrite <- Hs; apply list_elem_of_here).
        by apply list_elem_of_filter in Hf as [_ ?]. }
      apply elem_of_cons in Hin as [-> | Hin]; [lia |].
      by apply (proj1 (Forall_forall _ _) Hy). }
    assert (time y <= time x) as Hyx.
    { assert (y ∈ x :: l1) as Hin.
      { pose proof (Hsame (time y)) as Hs.
        rewrite (filter_cons_True _ y) in Hs by done.
        assert (y ∈ filter (fun v => time v = time y) (x :: l1)) as Hf
          by (rewrite Hs; apply list_elem_of_here).
        by apply list_elem_of_filter in Hf as [_ ?]. }
      apply elem_of_cons in Hin as [-> | Hin]; [lia |].
      by apply (proj1 (Forall_forall _ _) Hx). }
    assert (x = y) as <-.
    { specialize (Hsame (time x)).
      rewrite !filter_cons_True in Hsame by lia. by injection Hsame. }
    f_equal. apply IH; [done |]. intros t. specialize (Hsame t).
    rewrite !(filter_cons _ x) in Hsame. case_decide; [by injection Hsame | done].
Qed.

(** Hence the list [Array_sort] computes is the one a stable sort by
    descending upload time has to produce, whatever its algorithm. *)
Lemma sort_byUploadDateDesc_unique l sorted :
  StronglySorted (notOlder getTime) sorted ->
  (forall t, uploadedAt getTime t sorted = uploadedAt getTime t l) ->
  sorted = Array_sort cmp l.
Proof.
  intros Hs Hstable. apply descending_stable_unique; [done | |].
  - apply sort_byUploadDateDesc_descending.
  - intros t. by rewrite sort_byUploadDateDesc_stable.
Qed.
End UploadOrder.

(** C3, as the code has it. After a successful [addAppVersion(projectId,
    data, file)] the call returns the version of the response, and in
    every cached project with the identifier [projectId] the [versions]
    are that version together with the versions there were, in descending
    order of upload time, versions of the same upload time in the order
    they had with the new one ahead of them. The new version is the first
    entry when no version there was has a later upload time; the versions
    there were then follow it, and in the order they had if that order was
    descending. On a failure the call returns [null]. *)
Theorem addAppVersion_sorted_by_upload getTime projectId versionData file fetch st :
  let outcome := fetch (request_of (OpAddAppVersion projectId versionData file fetch)) in
  let st' := fst (addAppVersion getTime projectId versionData file fetch st) in
  let result := snd (addAppVersion getTime projectId versionData file fetch st) in
  (forall b, Success outcome b ->
     result = Some (data b) /\
     length (projects st') = length (projects st) /\
     forall i p, projects st !! i = Some p -> Project._id p = projectId ->
       exists p', projects st' !! i = Some p' /\
         p' = Project.with_versions p (Project.versions p') /\
         Project.versions p' ≡ₚ data b :: Project.versions p /\
         StronglySorted (notOlder getTime) (Project.versions p') /\
         (forall t, uploadedAt getTime t (Project.versions p')
                    = uploadedAt getTime t (data b :: Project.versions p)) /\
         (Forall (notOlder getTime (data b)) (Project.versions p) ->
            exists rest, Project.versions p' = data b :: rest /\
              rest ≡ₚ Project.versions p /\
              (StronglySorted (notOlder getTime) (Project.versions p) ->
                 rest = Project.versions p))) /\
  (Failure outcome -> result = None).
Proof.
  cbv zeta. split.
  - intros b Hok. rewrite (addAppVersion_Success getTime st _ _ _ _ b Hok).
    cbn [fst snd projects].
    split; [done |]. split; [by rewrite length_fmap |].
    intros i p Hp Hid. rewrite (reconcile_lookup _ _ _ _ _ Hp), decide_True by done.
    eexists. split; [done |]. cbn [Project.versions Project.with_versions].
    split; [by destruct p |].
    split; [apply Array_sort_Permutation |].
    split; [apply sort_byUploadDateDesc_descending |].
    split; [intros t; apply sort_byUploadDateDesc_stable |].
    intros Hnewest. rewrite (sort_byUploadDateDesc_newest _ _ _ Hnewest).
    eexists. split; [done |]. split; [apply Array_sort_Permutation |].
    apply sort_byUploadDateDesc_descending_id.
  - intros Hfail.
    by destruct (addAppVersion_Failure getTime st _ _ _ _ Hfail) as [m ->].
Qed.

Lemma addAppVersion_sorted_by_upload_witness :
  Success (respond 201 (mkBody None Scenario.V3)
             (request_of (OpAddAppVersion "P" Scenario.upload Scenario.apk
                            (respond 201 (mkBody None Scenario.V3)))))
          (mkBody None Scenario.V3) /\
  snd (addAppVersion IsoDate.getTime "P" Scenario.upload Scenario.apk
         (respond 201 (mkBody None Scenario.V3)) Scenario.cache)
  = Some Scenario.V3.
Proof.
  assert (Success (respond 201 (mkBody None Scenario.V3)
             (request_of (OpAddAppVersion "P" Scenario.upload Scenario.apk
                            (respond 201 (mkBody None Scenario.V3)))))
          (mkBody None Scenario.V3)) as Hok by (constructor; lia).
  split; [exact Hok |].
  exact (proj1 (proj1 (addAppVersion_sorted_by_upload IsoDate.getTime "P"
                         Scenario.upload Scenario.apk
                         (respond 201 (mkBody None Scenario.V3)) Scenario.cache)
                  (mkBody None Scenario.V3) Hok)).
Defined.

(** C3 as the specification words it fails when the server answers with a
    version whose upload time is earlier than that of a cached version:
    the upload of V0 to project P succeeds, and V0 is the last entry of the
    versions of P, not the first. *)
Lemma addAppVersion_earlier_upload_not_first :
  Success (respond 201 (mkBody None Scenario.V0)
             (request_of (OpAddAppVersion "P" Scenario.upload Scenario.apk
                            (respond 201 (mkBody None Scenario.V0)))))
          (mkBody None Scenario.V0) /\
  snd (addAppVersion IsoDate.getTime "P" Scenario.upload Scenario.apk
         (respond 201 (mkBody None Scenario.V0)) Scenario.cache)
  = Some Scenario.V0 /\
  Project.versions <$>
    getProjectById
      (fst (addAppVersion IsoDate.getTime "P" Scenario.upload Scenario.apk
              (respond 201 (mkBody None Scenario.V0)) Scenario.cache)) "P"
  = Some [Scenario.V2; Scenario.V1; Scenario.V0] /\
  ~ (exists p,
       getProjectById
         (fst (addAppVersion IsoDate.getTime "P" Scenario.upload Scenario.apk
                 (respond 201 (mkBody None Scenario.V0)) Scenario.cache)) "P"
       = Some p /\
       head (Project.versions p) = Some Scenario.V0).
Proof.
  split; [constructor; lia |].
  split; [reflexivity |]. split; [reflexivity |].
  intros (p & Hp & Hhead). vm_compute in Hp. inversion Hp; subst p.
  vm_compute in Hhead. discriminate Hhead.
Qed.

(** ** toggleVersionEnvironment *)

(** Whatever the outcome of its exchange, [updateVersionEnvironments]
    leaves every version with another identifier than [versionId] where
    and as it was. *)
Lemma updateVersionEnvironments_peers projectId versionId envs fetch st i p :
  projects st !! i = Some p ->
  exists p',
    projects (fst (updateVersionEnvironments projectId versionId envs fetch st)) !! i
    = Some p' /\
    Project._id p' = Project._id p /\
    forall j v, Project.versions p !! j = Some v -> AppVersion._id v <> versionId ->
                Project.versions p' !! j = Some v.
Proof.
  intros Hp.
  destruct (Failure_or_Success
              (fetch (request_of
                 (OpUpdateVersionEnvironments projectId versionId envs fetch))))
    as [Hfail | [b Hok]].
  - destruct (updateVersionEnvironments_Failure st _ _ _ _ Hfail) as [m ->].
    exists p. done.
  - rewrite (updateVersionEnvironments_Success st _ _ _ _ b Hok).
    cbn [fst projects]. rewrite (reconcile_lookup _ _ _ _ _ Hp).
    case_decide; [| by exists p].
    eexists. split; [done |]. split; [done |].
    cbn [Project.versions Project.with_versions].
    intros j v Hv Hne. rewrite list_lookup_fmap, Hv. cbn.
    by rewrite decide_False.
Qed.

(** The handler changes no stored record but that of the version it is
    called for: the other versions of the platform keep the environment. *)
Lemma toggleVersionEnvironment_peers project versionId environment fetch st i p :
  projects st !! i = Some p ->
  exists p',
    projects (ProjectDetailsPage.toggleVersionEnvironment project versionId environment fetch st) !! i
    = Some p' /\
    Project._id p' = Project._id p /\
    forall j v, Project.versions p !! j = Some v -> AppVersion._id v <> versionId ->
                Project.versions p' !! j = Some v.
Proof.
  intros Hp. unfold ProjectDetailsPage.toggleVersionEnvironment.
  destruct project as [project |]; [| by exists p].
  destruct (snd <$> list_find _ (Project.versions project)) as [targetVersion |];
    [| by exists p].
  by apply updateVersionEnvironments_peers.
Qed.

(** The handler sends one request, the one for the version it is called
    for: backends that answer that request alike give the same cache. *)
Lemma toggleVersionEnvironment_single_request project targetVersion versionId
    environment fetch1 fetch2 st :
  snd <$> list_find (fun v => AppVersion._id v = versionId) (Project.versions project)
  = Some targetVersion ->
  let envs :=
    if bool_decide (environment ∈ AppVersion.activeEnvironments targetVersion)
    then filter (fun e => e <> environment) (AppVersion.activeEnvironments targetVersion)
    else AppVersion.activeEnvironments targetVersion ++ [environment] in
  let request := request_of (OpUpdateVersionEnvironments (Project._id project)
                               versionId envs fetch1) in
  fetch1 request = fetch2 request ->
  ProjectDetailsPage.toggleVersionEnvironment (Some project) versionId environment fetch1 st
  = ProjectDetailsPage.toggleVersionEnvironment (Some project) versionId environment fetch2 st.
Proof.
  intros Hfind envs request Hsame. unfold ProjectDetailsPage.toggleVersionEnvironment.
  rewrite Hfind. cbv zeta. fold envs.
  unfold updateVersionEnvironments. cbn [request_of] in request.
  fold request. by rewrite Hsame.
Qed.

(** The head of the cache is what the lookup of its identifier finds. *)
Lemma getProjectById_first st projectId p :
  projects st !! 0%nat = Some p -> Project._id p = projectId ->
  getProjectById st projectId = Some p.
Proof.
  unfold getProjectById. destruct (projects st) as [| p0 ps]; [done |].
  cbn. intros [= ->] Hid. by rewrite decide_True.
Qed.

(** The container itself carries the two updates the policy asks for: the
    removal of Staging from V1 and then the activation on V2 end with V1
    active nowhere and V2 active in Staging. *)
Example exclusive_activation_by_two_updates :
  let st1 := fst (updateVersionEnvironments "P" "V1" []
                    (storesEnvironments Scenario.V1) Scenario.cache) in
  let st2 := fst (updateVersionEnvironments "P" "V2" [Staging]
                    (storesEnvironments Scenario.V2) st1) in
  Project.versions <$> getProjectById st2 "P"
  = Some [AppVersion.with_activeEnvironments Scenario.V2 [Staging];
          AppVersion.with_activeEnvironments Scenario.V1 []] /\
  exclusive <$> getProjectById st2 "P" = Some true.
Proof. by vm_compute. Qed.

(** C1, on the code. Project P holds the Android versions V1, active in
    Staging, and V2, active nowhere, and the user activates Staging on V2.
    Whatever the backend answers, the cache still holds V1 as it was,
    active in Staging, after the handler has run; and with the backend
    that stores the set it is sent, V1 and V2 are both active in Staging:
    the project satisfied the policy of one active version per platform
    and environment before the call and violates it after. The
    specification's final state, V1 active nowhere, is not reached. *)
Theorem toggleVersionEnvironment_leaves_peer_active :
  let project := getProjectById Scenario.cache "P" in
  (forall fetch,
     exists p',
       getProjectById
         (ProjectDetailsPage.toggleVersionEnvironment project "V2" Staging fetch Scenario.cache) "P"
       = Some p' /\
       Project.versions p' !! 1%nat = Some Scenario.V1 /\
       AppVersion.activeEnvironments Scenario.V1 = [Staging]) /\
  let st' := ProjectDetailsPage.toggleVersionEnvironment project "V2" Staging
               (storesEnvironments Scenario.V2) Scenario.cache in
  Project.versions <$> getProjectById st' "P"
  = Some [AppVersion.with_activeEnvironments Scenario.V2 [Staging]; Scenario.V1] /\
  exclusive <$> getProjectById Scenario.cache "P" = Some true /\
  exclusive <$> getProjectById st' "P" = Some false.
Proof.
  cbv zeta. split; [| by vm_compute].
  intros fetch.
  destruct (toggleVersionEnvironment_peers (getProjectById Scenario.cache "P")
              "V2" Staging fetch Scenario.cache 0%nat Scenario.P eq_refl)
    as (p' & Hp' & Hid & Hpeers).
  exists p'. split.
  - by apply getProjectById_first.
  - split; [| done]. by apply Hpeers.
Qed.

(** ** generateReleaseNotes *)

(** C2, as the code has it. Without API credentials ([API_KEY] undefined
    or empty) [generateReleaseNotes] returns its fixed placeholder text for
    every prompt and sends nothing. With credentials it returns the text
    the service generated; when the request fails it raises an [Error]
    whose message is "Failed to generate content: " followed by the cause,
    and it is the caller on the page that catches it and stores a fixed
    placeholder text of its own as the release notes. *)
Theorem generateReleaseNotes_outcomes API_KEY generateContent prompt :
  (API_KEY = None \/ API_KEY = Some "" ->
   geminiService.generateReleaseNotes API_KEY generateContent prompt
   = Return "AI-generated release notes are unavailable. Please provide an API_KEY or write them manually.") /\
  (forall key, API_KEY = Some key -> key <> "" ->
     match generateContent GEMINI_API_MODEL_TEXT prompt with
     | Generated text =>
         geminiService.generateReleaseNotes API_KEY generateContent prompt
         = Return text
     | Rejected error =>
         geminiService.generateReleaseNotes API_KEY generateContent prompt
         = Throw ("Failed to generate content: " +:+
                  match error with
                  | ErrorObject message => message
                  | OtherValue asString => asString
                  end) /\
         forall project selectedFile platform versionName buildNumber notes,
           prompt = ProjectDetailsPage.releaseNotesPrompt project platform
                      versionName buildNumber selectedFile ->
           ProjectDetailsPage.generateReleaseNotes API_KEY generateContent
             (Some project) (Some selectedFile) platform versionName buildNumber
             notes
           = "Automated release notes generation failed. Please write manually."
     end).
Proof.
  split.
  - intros [-> | ->]; reflexivity.
  - intros key -> Hkey.
    unfold ProjectDetailsPage.generateReleaseNotes,
      geminiService.generateReleaseNotes.
    cbn [not_str]. rewrite bool_decide_eq_false_2 by done.
    destruct (generateContent GEMINI_API_MODEL_TEXT prompt) as [text | e] eqn:Hgen;
      [done |].
    split; [done |].
    intros project selectedFile platform versionName buildNumber notes <-.
    by rewrite Hgen.
Qed.

Lemma generateReleaseNotes_outcomes_witness :
  (Some "secret" : option string) = Some "secret" /\ "secret" <> "" /\
  geminiService.generateReleaseNotes (Some "secret")
    (fun _ _ : string => Generated "Bug fixes and improvements.")
    "Generate release notes."
  = Return "Bug fixes and improvements.".
Proof.
  split; [reflexivity |].
  assert ("secret" <> "") as Hkey by discriminate.
  split; [exact Hkey |].
  exact (proj2 (generateReleaseNotes_outcomes (Some "secret")
                  (fun _ _ : string => Generated "Bug fixes and improvements.")
                  "Generate release notes.") "secret" eq_refl Hkey).
Defined.

(** C2 as the specification words it fails on a request that fails: with
    credentials and a service that answers 503, [generateReleaseNotes]
    raises; no string is returned. *)
Lemma generateReleaseNotes_request_failure_raises :
  geminiService.generateReleaseNotes (Some "secret")
    (fun _ _ : string => Rejected (ErrorObject "503 Service Unavailable"))
    "Generate release notes."
  = Throw "Failed to generate content: 503 Service Unavailable" /\
  ~ (exists text,
       geminiService.generateReleaseNotes (Some "secret")
         (fun _ _ : string => Rejected (ErrorObject "503 Service Unavailable"))
         "Generate release notes."
       = Return text).
Proof.
  split; [reflexivity |]. intros [text Htext]. discriminate Htext.
Qed.

(** * Further properties of the container and of its callers *)

(** ** Lookups in a cache that an operation has rewritten *)

Lemma find_project_cons projectId (p : Project.t) (ps : list Project.t) :
  snd <$> list_find (fun q => Project._id q = projectId) (p :: ps)
  = if decide (Project._id p = projectId) then Some p
    else snd <$> list_find (fun q => Project._id q = projectId) ps.
Proof.
  cbn. case_decide; [done |].
  by destruct (list_find (fun q => Project._id q = projectId) ps) as [[i q] |].
Qed.

Lemma find_project_fmap (f : Project.t -> Project.t) projectId (ps : list Project.t) :
  (forall p, Project._id (f p) = Project._id p) ->
  snd <$> list_find (fun q => Project._id q = projectId) (f <$> ps)
  = f <$> (snd <$> list_find (fun q => Project._id q = projectId) ps).
Proof.
  intros Hid. induction ps as [| p ps IH]; [done |].
  rewrite fmap_cons, !find_project_cons, Hid, IH. by case_decide.
Qed.

Lemma find_project_filter_other projectId removed (ps : list Project.t) :
  projectId <> removed ->
  snd <$> list_find (fun q => Project._id q = projectId)
            (filter (fun q => Project._id q <> removed) ps)
  = snd <$> list_find (fun q => Project._id q = projectId) ps.
Proof.
  intros Hne. induction ps as [| p ps IH]; [done |].
  rewrite filter_cons. case_decide as Hp.
  - rewrite !find_project_cons, IH. done.
  - rewrite find_project_cons, IH, decide_False; [done |].
    destruct (decide (Project._id p = removed)); [congruence | done].
Qed.

Lemma find_project_filter_removed removed (ps : list Project.t) :
  snd <$> list_find (fun q => Project._id q = removed)
            (filter (fun q => Project._id q <> removed) ps)
  = None.
Proof.
  rewrite fmap_None, list_find_None, Forall_forall.
  intros p Hp. by apply list_elem_of_filter in Hp as [? _].
Qed.

Lemma find_project_snoc projectId (p : Project.t) (ps : list Project.t) :
  snd <$> list_find (fun q => Project._id q = projectId) (ps ++ [p])
  = match snd <$> list_find (fun q => Project._id q = projectId) ps with
    | Some q => Some q
    | None => if decide (Project._id p = projectId) then Some p else None
    end.
Proof.
  induction ps as [| q ps IH].
  - cbn. by case_decide.
  - rewrite <- app_comm_cons, !find_project_cons, IH.
    by destruct (decide (Project._id q = projectId)).
Qed.

Lemma filter_project_fresh projectId (ps : list Project.t) :
  Forall (fun p => Project._id p <> projectId) ps ->
  filter (fun p => Project._id p <> projectId) ps = ps.
Proof.
  induction 1 as [| p ps Hp _ IH]; [done |].
  by rewrite filter_cons_True, IH.
Qed.

(** ** addProject and deleteProject *)

(** X1. After a successful [addProject] the lookup of an identifier that a
    cached project already had gives that project as before; the lookup of
    any other identifier gives the new project if it is its identifier and
    nothing otherwise. In particular a new project whose identifier is
    already in the cache is appended but is not what the lookup finds. *)
Theorem addProject_then_lookup name description platforms fetch st b projectId :
  Success (fetch (request_of (OpAddProject name description platforms fetch))) b ->
  getProjectById (fst (addProject name description platforms fetch st)) projectId
  = match getProjectById st projectId with
    | Some p => Some p
    | None => if decide (Project._id (data b) = projectId) then Some (data b) else None
    end.
Proof.
  intros Hok. rewrite (addProject_Success st _ _ _ _ b Hok).
  unfold getProjectById. cbn [fst projects]. apply find_project_snoc.
Qed.

Lemma addProject_then_lookup_witness :
  Success (respond 201 (mkBody None Scenario.Q)
             (request_of (OpAddProject "Courier" None [iOS]
                            (respond 201 (mkBody None Scenario.Q)))))
          (mkBody None Scenario.Q) /\
  getProjectById
    (fst (addProject "Courier" None [iOS] (respond 201 (mkBody None Scenario.Q))
            {| projects := [Scenario.P]; loading := false; error := None |})) "Q"
  = Some Scenario.Q.
Proof.
  assert (Success (respond 201 (mkBody None Scenario.Q)
             (request_of (OpAddProject "Courier" None [iOS]
                            (respond 201 (mkBody None Scenario.Q)))))
          (mkBody None Scenario.Q)) as Hok by (constructor; lia).
  split; [exact Hok |].
  exact (addProject_then_lookup "Courier" None [iOS]
           (respond 201 (mkBody None Scenario.Q))
           {| projects := [Scenario.P]; loading := false; error := None |}
           (mkBody None Scenario.Q) "Q" Hok).
Defined.

(** X2. Creating a project whose identifier is new to the cache and then
    deleting that identifier gives back the list of projects there was;
    both exchanges succeed. *)
Theorem addProject_deleteProject_roundtrip name description platforms
    fetchAdd fetchDelete st b b' :
  Success (fetchAdd (request_of (OpAddProject name description platforms fetchAdd))) b ->
  Forall (fun p => Project._id p <> Project._id (data b)) (projects st) ->
  let st1 := fst (addProject name description platforms fetchAdd st) in
  Success (fetchDelete
             (request_of (OpDeleteProject (Project._id (data b)) fetchDelete))) b' ->
  projects (fst (deleteProject (Project._id (data b)) fetchDelete st1)) = projects st.
Proof.
  intros Hadd Hfresh st1 Hdel. subst st1.
  rewrite (addProject_Success st _ _ _ _ b Hadd).
  rewrite (deleteProject_Success _ _ _ b' Hdel). cbn [fst projects].
  rewrite filter_app, (filter_project_fresh _ _ Hfresh), filter_cons_False by tauto.
  by rewrite filter_nil, app_nil_r.
Qed.

Lemma addProject_deleteProject_roundtrip_witness :
  projects
    (fst (deleteProject "Q" (respond 200 (mkBody None tt))
            (fst (addProject "Courier" None [iOS]
                    (respond 201 (mkBody None Scenario.Q))
                    {| projects := [Scenario.P]; loading := false; error := None |}))))
  = [Scenario.P].
Proof.
  apply (addProject_deleteProject_roundtrip "Courier" None [iOS]
           (respond 201 (mkBody None Scenario.Q)) (respond 200 (mkBody None tt))
           {| projects := [Scenario.P]; loading := false; error := None |}
           (mkBody None Scenario.Q) (mkBody None tt)).
  - constructor; lia.
  - repeat constructor. discriminate.
  - constructor; lia.
Defined.

(** X3. After a successful [deleteProject(projectId)] the lookup of
    [projectId] finds nothing and the lookup of every other identifier
    finds what it found before; deleting the same identifier once more
    leaves the list of projects as it is, whatever the outcome of the
    second exchange. *)
Theorem deleteProject_then_lookup projectId fetch st b :
  Success (fetch (request_of (OpDeleteProject projectId fetch))) b ->
  let st1 := fst (deleteProject projectId fetch st) in
  getProjectById st1 projectId = None /\
  (forall other, other <> projectId ->
     getProjectById st1 other = getProjectById st other) /\
  (forall fetch', projects (fst (deleteProject projectId fetch' st1)) = projects st1).
Proof.
  intros Hok st1. subst st1. rewrite (deleteProject_Success st _ _ b Hok).
  unfold getProjectById. cbn [fst projects]. split; [| split].
  - apply find_project_filter_removed.
  - intros other Hne. by apply find_project_filter_other.
  - intros fetch'.
    destruct (Failure_or_Success
                (fetch' (request_of (OpDeleteProject projectId fetch'))))
      as [Hfail | [b' Hok']].
    + by destruct (deleteProject_Failure
                     {| projects := filter (fun p => Project._id p <> projectId)
                                           (projects st);
                        loading := false; error := None |} _ _ Hfail) as [m ->].
    + rewrite (deleteProject_Success _ _ _ b' Hok'). cbn [fst projects].
      apply filter_project_fresh, Forall_forall. intros p Hp.
      by apply list_elem_of_filter in Hp as [? _].
Qed.

Lemma deleteProject_then_lookup_witness :
  getProjectById
    (fst (deleteProject "P" (respond 200 (mkBody None tt)) Scenario.cache)) "P"
  = None.
Proof.
  apply (deleteProject_then_lookup "P" (respond 200 (mkBody None tt))
           Scenario.cache (mkBody None tt)).
  constructor; lia.
Defined.

(** ** updateProjectDetails *)

(** X4. After a successful [updateProjectDetails(projectId, ...)] the call
    returns the project of the response, the cache has as many projects as
    before, and at every position the cached project is replaced by the
    project of the response, as a whole, if it had the identifier
    [projectId], and is the project it was otherwise. The versions the
    cache held for the project are therefore the versions of the response,
    none if the response carries none. *)
Theorem updateProjectDetails_replaces_whole projectId name description platforms
    fetch st b :
  Success (fetch (request_of
             (OpUpdateProjectDetails projectId name description platforms fetch))) b ->
  let st' := fst (updateProjectDetails projectId name description platforms fetch st) in
  snd (updateProjectDetails projectId name description platforms fetch st)
  = Some (data b) /\
  length (projects st') = length (projects st) /\
  (forall i p, projects st !! i = Some p ->
     projects st' !! i
     = Some (if decide (Project._id p = projectId) then data b else p)) /\
  (forall i p p', projects st !! i = Some p -> Project._id p = projectId ->
     projects st' !! i = Some p' ->
     Project.versions p' = Project.versions (data b)).
Proof.
  intros Hok st'. subst st'.
  rewrite (updateProjectDetails_Success st _ _ _ _ _ b Hok). cbn [fst snd projects].
  split; [done |]. split; [by rewrite length_fmap |].
  assert (forall i p, projects st !! i = Some p ->
            ((fun p => if decide (Project._id p = projectId) then data b else p)
               <$> projects st) !! i
            = Some (if decide (Project._id p = projectId) then data b else p)) as Hpos.
  { intros i p Hp. by rewrite list_lookup_fmap, Hp. }
  split; [exact Hpos |].
  intros i p p' Hp Hid Hp'. rewrite (Hpos i p Hp), decide_True in Hp' by done.
  by injection Hp' as <-.
Qed.

Lemma updateProjectDetails_replaces_whole_witness :
  snd (updateProjectDetails "P" "Shop" None [Android]
         (respond 200 (mkBody None Scenario.Q)) Scenario.cache)
  = Some Scenario.Q.
Proof.
  apply (updateProjectDetails_replaces_whole "P" "Shop" None [Android]
           (respond 200 (mkBody None Scenario.Q)) Scenario.cache
           (mkBody None Scenario.Q)).
  constructor; lia.
Defined.

(** ** The versions of a project *)

(** The lookup of [wanted] in a cache in which the projects with the
    identifier [projectId] have been given the versions [g p]. *)
Lemma find_project_reconciled (g : Project.t -> list AppVersion.t) projectId wanted
    (ps : list Project.t) :
  snd <$> list_find (fun q => Project._id q = wanted)
            ((fun p => if decide (Project._id p = projectId)
                       then Project.with_versions p (g p) else p) <$> ps)
  = (fun p => if decide (wanted = projectId)
              then Project.with_versions p (g p) else p)
      <$> (snd <$> list_find (fun q => Project._id q = wanted) ps).
Proof.
  rewrite find_project_fmap by (intros p; by case_decide).
  destruct (list_find (fun q => Project._id q = wanted) ps) as [[i p] |] eqn:Hfind;
    [| done].
  apply list_find_Some in Hfind as (_ & <- & _). cbn.
  by destruct (decide (Project._id p = projectId)).
Qed.

(** X5. What [getProjectById] finds after a successful operation on the
    versions of the project [projectId], which is how the pages read the
    result of the operation: for [projectId], the project it found before
    with the versions the operation computed (the new version sorted in,
    the version filtered out, the version replaced); for every other
    identifier, what it found before. *)
Theorem version_operation_then_lookup getTime projectId st :
  (forall versionData file fetch b,
     Success (fetch (request_of (OpAddAppVersion projectId versionData file fetch))) b ->
     let st' := fst (addAppVersion getTime projectId versionData file fetch st) in
     getProjectById st' projectId
     = (fun p => Project.with_versions p
                   (Array_sort (byUploadDateDesc getTime) (data b :: Project.versions p)))
         <$> getProjectById st projectId /\
     forall other, other <> projectId ->
       getProjectById st' other = getProjectById st other) /\
  (forall versionId fetch b,
     Success (fetch (request_of (OpDeleteAppVersion projectId versionId fetch))) b ->
     let st' := fst (deleteAppVersion projectId versionId fetch st) in
     getProjectById st' projectId
     = (fun p => Project.with_versions p
                   (filter (fun v => AppVersion._id v <> versionId) (Project.versions p)))
         <$> getProjectById st projectId /\
     forall other, other <> projectId ->
       getProjectById st' other = getProjectById st other) /\
  (forall versionId envs fetch b,
     Success (fetch (request_of
                (OpUpdateVersionEnvironments projectId versionId envs fetch))) b ->
     let st' := fst (updateVersionEnvironments projectId versionId envs fetch st) in
     getProjectById st' projectId
     = (fun p => Project.with_versions p
                   ((fun v => if decide (AppVersion._id v = versionId)
                              then data b else v) <$> Project.versions p))
         <$> getProjectById st projectId /\
     forall other, other <> projectId ->
       getProjectById st' other = getProjectById st other).
Proof.
  assert (forall (g : Project.t -> list AppVersion.t) other, other <> projectId ->
            (fun p => if decide (other = projectId)
                      then Project.with_versions p (g p) else p)
              <$> getProjectById st other
            = getProjectById st other) as Hother.
  { intros g other Hne. destruct (getProjectById st other); cbn; [| done].
    by rewrite decide_False. }
  assert (forall (g : Project.t -> list AppVersion.t),
            (fun p => if decide (projectId = projectId)
                      then Project.with_versions p (g p) else p)
              <$> getProjectById st projectId
            = (fun p => Project.with_versions p (g p)) <$> getProjectById st projectId)
    as Hsame.
  { intros g. destruct (getProjectById st projectId); cbn; [| done].
    by rewrite decide_True. }
  unfold getProjectById in *. split; [| split].
  - intros versionData file fetch b Hok. cbv zeta.
    rewrite (addAppVersion_Success getTime st _ _ _ _ b Hok). cbn [fst projects].
    split.
    + rewrite (find_project_reconciled
                 (fun p => Array_sort (byUploadDateDesc getTime)
                             (data b :: Project.versions p))).
      apply Hsame.
    + intros other Hne.
      rewrite (find_project_reconciled
                 (fun p => Array_sort (byUploadDateDesc getTime)
                             (data b :: Project.versions p))).
      by apply Hother.
  - intros versionId fetch b Hok. cbv zeta.
    rewrite (deleteAppVersion_Success st _ _ _ b Hok). cbn [fst projects].
    split.
    + rewrite (find_project_reconciled
                 (fun p => filter (fun v => AppVersion._id v <> versionId)
                                  (Project.versions p))).
      apply Hsame.
    + intros other Hne.
      rewrite (find_project_reconciled
                 (fun p => filter (fun v => AppVersion._id v <> versionId)
                                  (Project.versions p))).
      by apply Hother.
  - intros versionId envs fetch b Hok. cbv zeta.
    rewrite (updateVersionEnvironments_Success st _ _ _ _ b Hok). cbn [fst projects].
    split.
    + rewrite (find_project_reconciled
                 (fun p => (fun v => if decide (AppVersion._id v = versionId)
                                     then data b else v) <$> Project.versions p)).
      apply Hsame.
    + intros other Hne.
      rewrite (find_project_reconciled
                 (fun p => (fun v => if decide (AppVersion._id v = versionId)
                                     then data b else v) <$> Project.versions p)).
      by apply Hother.
Qed.

Lemma version_operation_then_lookup_witness :
  Project.versions <$>
    getProjectById
      (fst (deleteAppVersion "P" "V1" (respond 200 (mkBody None tt)) Scenario.cache))
      "P"
  = Some [Scenario.V2].
Proof.
  pose proof (proj1 (proj1 (proj2 (version_operation_then_lookup IsoDate.getTime "P"
                                     Scenario.cache))
                       "V1" (respond 200 (mkBody None tt)) (mkBody None tt)
                       ltac:(constructor; lia))) as Hfound.
  cbv zeta in Hfound. rewrite Hfound. reflexivity.
Defined.

(** X6. After a successful [deleteAppVersion(projectId, versionId)] the
    call returns [true]; a project with another identifier is the record it
    was; a project with the identifier [projectId] keeps its position and
    its other fields, and its versions are the versions it had, in their
    order, without those of the identifier [versionId]: none of them is
    left, and nothing else is dropped. *)
Theorem deleteAppVersion_removes_by_identity projectId versionId fetch st b :
  Success (fetch (request_of (OpDeleteAppVersion projectId versionId fetch))) b ->
  let st' := fst (deleteAppVersion projectId versionId fetch st) in
  snd (deleteAppVersion projectId versionId fetch st) = true /\
  length (projects st') = length (projects st) /\
  forall i p, projects st !! i = Some p ->
    exists p', projects st' !! i = Some p' /\
      p' = Project.with_versions p (Project.versions p') /\
      (Project._id p <> projectId -> p' = p) /\
      (Project._id p = projectId ->
         Forall (fun v => AppVersion._id v <> versionId) (Project.versions p') /\
         Project.versions p' `sublist_of` Project.versions p /\
         exists dropped,
           Project.versions p ≡ₚ Project.versions p' ++ dropped /\
           Forall (fun v => AppVersion._id v = versionId) dropped).
Proof.
  intros Hok st'. subst st'.
  rewrite (deleteAppVersion_Success st _ _ _ b Hok). cbn [fst snd projects].
  split; [done |]. split; [by rewrite length_fmap |].
  intros i p Hp. rewrite (reconcile_lookup _ _ _ _ _ Hp).
  case_decide as Hid.
  - eexists. split; [done |]. cbn [Project.versions Project.with_versions].
    split; [by destruct p |]. split; [done |]. intros _.
    split; [| split].
    + apply Forall_forall. intros v Hv. by apply list_elem_of_filter in Hv as [? _].
    + apply sublist_filter.
    + exists (filter (fun v => ¬ AppVersion._id v <> versionId) (Project.versions p)).
      split; [symmetry; apply filter_app_complement |].
      apply Forall_forall. intros v Hv. apply list_elem_of_filter in Hv as [Hv _].
      by destruct (decide (AppVersion._id v = versionId)).
  - exists p. split; [done |]. split; [by destruct p |]. done.
Qed.

Lemma deleteAppVersion_removes_by_identity_witness :
  snd (deleteAppVersion "P" "V1" (respond 200 (mkBody None tt)) Scenario.cache) = true.
Proof.
  apply (deleteAppVersion_removes_by_identity "P" "V1" (respond 200 (mkBody None tt))
           Scenario.cache (mkBody None tt)).
  constructor; lia.
Defined.

(** The sort leaves the versions that [P] keeps in their order when the
    version it inserts is not one of them. *)
Lemma filter_sort_insert {A} (comparefn : A -> A -> Z) (P : A -> Prop)
    `{forall x, Decision (P x)} x l :
  ¬ P x -> filter P (sort_insert comparefn x l) = filter P l.
Proof.
  intros Hx. induction l as [| y l IH]; cbn [sort_insert].
  - by rewrite filter_cons_False.
  - case_decide.
    + by rewrite filter_cons_False.
    + by rewrite !(filter_cons _ y), IH.
Qed.

Lemma filter_version_fresh versionId (vs : list AppVersion.t) :
  Forall (fun v => AppVersion._id v <> versionId) vs ->
  filter (fun v => AppVersion._id v <> versionId) vs = vs.
Proof.
  induction 1 as [| v vs Hv _ IH]; [done |].
  by rewrite filter_cons_True, IH.
Qed.

(** X7. Uploading a version and then deleting it gives back the cache
    there was, when the projects with the identifier [projectId] held
    their versions in descending order of upload time and held none with
    the identifier of the new version; both exchanges succeed. *)
Theorem addAppVersion_deleteAppVersion_roundtrip getTime projectId versionData file
    fetchAdd fetchDelete st b b' :
  Success (fetchAdd (request_of
             (OpAddAppVersion projectId versionData file fetchAdd))) b ->
  (forall p, p ∈ projects st -> Project._id p = projectId ->
     StronglySorted (notOlder getTime) (Project.versions p) /\
     Forall (fun v => AppVersion._id v <> AppVersion._id (data b)) (Project.versions p)) ->
  let st1 := fst (addAppVersion getTime projectId versionData file fetchAdd st) in
  Success (fetchDelete (request_of
             (OpDeleteAppVersion projectId (AppVersion._id (data b)) fetchDelete))) b' ->
  projects (fst (deleteAppVersion projectId (AppVersion._id (data b)) fetchDelete st1))
  = projects st.
Proof.
  intros Hadd Hinv st1 Hdel. subst st1.
  rewrite (addAppVersion_Success getTime st _ _ _ _ b Hadd).
  rewrite (deleteAppVersion_Success _ _ _ _ b' Hdel). cbn [fst projects].
  rewrite <- list_fmap_compose. rewrite <- (list_fmap_id (projects st)) at 2.
  apply list_fmap_ext. intros i p Hp. unfold compose, id.
  destruct (decide (Project._id p = projectId)) as [Hid | Hid].
  - cbn [Project._id Project.with_versions]. rewrite decide_True by done.
    cbn [Project.versions Project.with_versions].
    destruct (Hinv p (list_elem_of_lookup_2 _ _ _ Hp) Hid) as [Hsorted Hfresh].
    cbn [Array_sort]. rewrite (sort_byUploadDateDesc_descending_id _ _ Hsorted).
    rewrite filter_sort_insert by tauto.
    rewrite (filter_version_fresh _ _ Hfresh). by destruct p.
  - by rewrite decide_False.
Qed.

Lemma addAppVersion_deleteAppVersion_roundtrip_witness :
  projects
    (fst (deleteAppVersion "P" "V3" (respond 200 (mkBody None tt))
            (fst (addAppVersion IsoDate.getTime "P" Scenario.upload Scenario.apk
                    (respond 201 (mkBody None Scenario.V3)) Scenario.cache))))
  = projects Scenario.cache.
Proof.
  apply (addAppVersion_deleteAppVersion_roundtrip IsoDate.getTime "P" Scenario.upload
           Scenario.apk (respond 201 (mkBody None Scenario.V3))
           (respond 200 (mkBody None tt)) Scenario.cache
           (mkBody None Scenario.V3) (mkBody None tt)).
  - constructor; lia.
  - intros p Hp Hid. cbn in Hp. rewrite !elem_of_cons in Hp.
    destruct Hp as [-> | [-> | Hp]]; [| discriminate Hid | by apply elem_of_nil in Hp].
    split.
    + repeat constructor; unfold notOlder, uploadTime; by vm_compute.
    + repeat constructor; discriminate.
  - constructor; lia.
Defined.

(** ** What every operation leaves behind *)

Ltac settle_operation Hfail_lemma Hok_lemma fetch op :=
  cbn [run outcome_failed request_of];
  destruct (Failure_or_Success (fetch (request_of op))) as [Hfail | [b Hok]];
  [ destruct (Hfail_lemma Hfail) as [m ->]; cbn; split; [done |];
    split; [done | tauto]
  | rewrite (Hok_lemma b Hok); cbn; split; [done |];
    split; [intros _ Hfail; exact (Failure_not_Success _ _ Hfail Hok) | done] ].

(** X8. Every operation ends with [loading = false], on each of its
    paths, and with [error = null] exactly when its exchange did not fail:
    the error of an earlier operation never outlives a later success, and
    no failure goes without an error. *)
Theorem operation_settles getTime op st :
  loading (fst (run getTime op st)) = false /\
  (error (fst (run getTime op st)) = None <-> ¬ outcome_failed op).
Proof.
  destruct op.
  - settle_operation (fetchProjects_Failure st fetch)
      (fetchProjects_Success st fetch) fetch (OpFetchProjects fetch).
  - settle_operation (addProject_Failure st name description platforms fetch)
      (addProject_Success st name description platforms fetch) fetch
      (OpAddProject name description platforms fetch).
  - settle_operation (deleteProject_Failure st projectId fetch)
      (deleteProject_Success st projectId fetch) fetch
      (OpDeleteProject projectId fetch).
  - settle_operation
      (updateProjectDetails_Failure st projectId name description platforms fetch)
      (updateProjectDetails_Success st projectId name description platforms fetch)
      fetch (OpUpdateProjectDetails projectId name description platforms fetch).
  - settle_operation (addAppVersion_Failure getTime st projectId versionData file fetch)
      (addAppVersion_Success getTime st projectId versionData file fetch) fetch
      (OpAddAppVersion projectId versionData file fetch).
  - settle_operation (deleteAppVersion_Failure st projectId versionId fetch)
      (deleteAppVersion_Success st projectId versionId fetch) fetch
      (OpDeleteAppVersion projectId versionId fetch).
  - settle_operation
      (updateVersionEnvironments_Failure st projectId versionId activeEnvironments fetch)
      (updateVersionEnvironments_Success st projectId versionId activeEnvironments fetch)
      fetch (OpUpdateVersionEnvironments projectId versionId activeEnvironments fetch).
Qed.

Lemma status_message_nonempty (status : Z) (msg : option string) :
  opt_str_or msg ("HTTP error! status: " +:+ pretty status) <> "".
Proof.
  destruct msg as [m |]; cbn; [| discriminate].
  unfold str_or. case_decide; [discriminate | done].
Qed.

Ltac status_message Hstatus :=
  let b := fresh "b" in
  let Hfetch := fresh "Hfetch" in
  let Hmsg := fresh "Hmsg" in
  destruct Hstatus as (Hrange & b & Hfetch & Hmsg);
  cbn [request_of] in Hfetch; cbn [run]; unfold_operation;
  rewrite Hfetch, (exchange_status_message _ b Hrange), Hmsg; cbn;
  by rewrite str_or_truthy by apply status_message_nonempty.

(** X9. When the server answers an operation with a status outside 200-299
    and a body that decodes, the error the operation stores is the
    [message] of the body if it has one that is not empty, and
    "HTTP error! status: " followed by the status otherwise. The
    operation's own "Failed to ..." text is not used on this path. *)
Theorem status_failure_error getTime op st status msg :
  status_failed op status msg ->
  error (fst (run getTime op st))
  = Some (opt_str_or msg ("HTTP error! status: " +:+ pretty status)).
Proof.
  destruct op; intros Hstatus; status_message Hstatus.
Qed.

Lemma status_failure_error_witness :
  error (fst (run IsoDate.getTime
                (OpDeleteAppVersion "P" "V1" (respond 503 (mkBody None tt)))
                Scenario.cache))
  = Some "HTTP error! status: 503".
Proof.
  apply (status_failure_error IsoDate.getTime
           (OpDeleteAppVersion "P" "V1" (respond 503 (mkBody None tt)))
           Scenario.cache 503 None).
  split; [lia |]. exists (mkBody None tt). split; reflexivity.
Defined.

(** ** Identifiers and order *)

Lemma NoDup_fmap_filter {A B} (f : A -> B) (P : A -> Prop) `{forall x, Decision (P x)}
    (l : list A) :
  NoDup (f <$> l) -> NoDup (f <$> filter P l).
Proof.
  induction l as [| x l IH]; [done |].
  rewrite fmap_cons, NoDup_cons. intros [Hx Hl]. rewrite filter_cons.
  case_decide; [| by apply IH].
  rewrite fmap_cons, NoDup_cons. split; [| by apply IH].
  intros Hin. apply Hx. apply list_elem_of_fmap in Hin as (y & -> & Hy).
  apply list_elem_of_filter in Hy as [_ Hy]. by apply list_elem_of_fmap_2.
Qed.

Lemma StronglySorted_filter {A} (R : relation A) (P : A -> Prop)
    `{forall x, Decision (P x)} (l : list A) :
  StronglySorted R l -> StronglySorted R (filter P l).
Proof.
  induction 1 as [| x l Hl IH Hx]; [constructor |].
  rewrite filter_cons. case_decide; [| done].
  constructor; [done |]. apply Forall_forall. intros y Hy.
  apply list_elem_of_filter in Hy as [_ Hy].
  by apply (proj1 (Forall_forall _ _) Hx).
Qed.

Lemma projectIds_reconciled (g : Project.t -> list AppVersion.t) projectId
    (ps : list Project.t) :
  Project._id <$> ((fun p => if decide (Project._id p = projectId)
                             then Project.with_versions p (g p) else p) <$> ps)
  = Project._id <$> ps.
Proof.
  rewrite <- list_fmap_compose. apply list_fmap_ext.
  intros i p _. unfold compose. by case_decide.
Qed.

(** X10. The identifiers of the cached projects, in their order: the three
    operations on versions leave them as they are on every outcome, and so
    does [updateProjectDetails] when the project of the response has the
    identifier that was asked for. If they are pairwise different they
    stay so under [deleteProject], on every outcome, and under
    [addProject] when the identifier of the new project is not among
    them. *)
Theorem project_identifiers_kept getTime st :
  (forall projectId versionData file fetch,
     projectIds (fst (addAppVersion getTime projectId versionData file fetch st))
     = projectIds st) /\
  (forall projectId versionId fetch,
     projectIds (fst (deleteAppVersion projectId versionId fetch st)) = projectIds st) /\
  (forall projectId versionId envs fetch,
     projectIds (fst (updateVersionEnvironments projectId versionId envs fetch st))
     = projectIds st) /\
  (forall projectId name description platforms fetch,
     (forall b, Success (fetch (request_of (OpUpdateProjectDetails projectId name
                                              description platforms fetch))) b ->
                Project._id (data b) = projectId) ->
     projectIds (fst (updateProjectDetails projectId name description platforms fetch st))
     = projectIds st) /\
  (forall projectId fetch,
     NoDup (projectIds st) ->
     NoDup (projectIds (fst (deleteProject projectId fetch st)))) /\
  (forall name description platforms fetch,
     NoDup (projectIds st) ->
     (forall b, Success (fetch (request_of
                           (OpAddProject name description platforms fetch))) b ->
                Project._id (data b) ∉ projectIds st) ->
     NoDup (projectIds (fst (addProject name description platforms fetch st)))).
Proof.
  unfold projectIds. repeat split.
  - intros projectId versionData file fetch.
    destruct (Failure_or_Success (fetch (request_of
                (OpAddAppVersion projectId versionData file fetch))))
      as [Hfail | [b Hok]].
    + by destruct (addAppVersion_Failure getTime st _ _ _ _ Hfail) as [m ->].
    + rewrite (addAppVersion_Success getTime st _ _ _ _ b Hok). cbn [fst projects].
      apply (projectIds_reconciled
               (fun p => Array_sort (byUploadDateDesc getTime)
                           (data b :: Project.versions p))).
  - intros projectId versionId fetch.
    destruct (Failure_or_Success (fetch (request_of
                (OpDeleteAppVersion projectId versionId fetch))))
      as [Hfail | [b Hok]].
    + by destruct (deleteAppVersion_Failure st _ _ _ Hfail) as [m ->].
    + rewrite (deleteAppVersion_Success st _ _ _ b Hok). cbn [fst projects].
      apply (projectIds_reconciled
               (fun p => filter (fun v => AppVersion._id v <> versionId)
                                (Project.versions p))).
  - intros projectId versionId envs fetch.
    destruct (Failure_or_Success (fetch (request_of
                (OpUpdateVersionEnvironments projectId versionId envs fetch))))
      as [Hfail | [b Hok]].
    + by destruct (updateVersionEnvironments_Failure st _ _ _ _ Hfail) as [m ->].
    + rewrite (updateVersionEnvironments_Success st _ _ _ _ b Hok). cbn [fst projects].
      apply (projectIds_reconciled
               (fun p => (fun v => if decide (AppVersion._id v = versionId)
                                   then data b else v) <$> Project.versions p)).
  - intros projectId name description platforms fetch Hsame.
    destruct (Failure_or_Success (fetch (request_of
                (OpUpdateProjectDetails projectId name description platforms fetch))))
      as [Hfail | [b Hok]].
    + by destruct (updateProjectDetails_Failure st _ _ _ _ _ Hfail) as [m ->].
    + rewrite (updateProjectDetails_Success st _ _ _ _ _ b Hok). cbn [fst projects].
      rewrite <- list_fmap_compose. apply list_fmap_ext.
      intros i p _. unfold compose. case_decide; [| done].
      rewrite (Hsame b Hok). done.
  - intros projectId fetch Hdup.
    destruct (Failure_or_Success (fetch (request_of (OpDeleteProject projectId fetch))))
      as [Hfail | [b Hok]].
    + by destruct (deleteProject_Failure st _ _ Hfail) as [m ->].
    + rewrite (deleteProject_Success st _ _ b Hok). cbn [fst projects].
      by apply NoDup_fmap_filter.
  - intros name description platforms fetch Hdup Hfresh.
    destruct (Failure_or_Success (fetch (request_of
                (OpAddProject name description platforms fetch))))
      as [Hfail | [b Hok]].
    + by destruct (addProject_Failure st _ _ _ _ Hfail) as [m ->].
    + rewrite (addProject_Success st _ _ _ _ b Hok). cbn [fst projects].
      rewrite fmap_app. apply NoDup_app. split; [done |]. split.
      * intros x Hx Hx'. cbn in Hx'. apply list_elem_of_singleton in Hx' as ->.
        by apply (Hfresh b Hok).
      * apply NoDup_singleton.
Qed.

Lemma project_identifiers_kept_witness :
  NoDup (projectIds (fst (deleteProject "P" unreachable Scenario.cache))).
Proof.
  apply (project_identifiers_kept IsoDate.getTime Scenario.cache).
  refine (bool_decide_unpack _ _). by vm_compute.
Defined.

(** X11. When the versions of every cached project have pairwise different
    identifiers, they still have after [deleteAppVersion], on every
    outcome; after [updateVersionEnvironments] when the version of the
    response has the identifier that was asked for; and after
    [addAppVersion] when the identifier of the new version is not among the
    versions of a project it is added to. *)
Theorem version_identifiers_unique getTime st :
  Forall (fun p => NoDup (versionIds p)) (projects st) ->
  (forall projectId versionId fetch,
     Forall (fun p => NoDup (versionIds p))
       (projects (fst (deleteAppVersion projectId versionId fetch st)))) /\
  (forall projectId versionId envs fetch,
     (forall b, Success (fetch (request_of (OpUpdateVersionEnvironments projectId
                                              versionId envs fetch))) b ->
                AppVersion._id (data b) = versionId) ->
     Forall (fun p => NoDup (versionIds p))
       (projects (fst (updateVersionEnvironments projectId versionId envs fetch st)))) /\
  (forall projectId versionData file fetch,
     (forall b p, Success (fetch (request_of (OpAddAppVersion projectId versionData
                                                file fetch))) b ->
                  p ∈ projects st -> Project._id p = projectId ->
                  AppVersion._id (data b) ∉ versionIds p) ->
     Forall (fun p => NoDup (versionIds p))
       (projects (fst (addAppVersion getTime projectId versionData file fetch st)))).
Proof.
  intros Hinv. unfold versionIds in *. repeat split.
  - intros projectId versionId fetch.
    destruct (Failure_or_Success (fetch (request_of
                (OpDeleteAppVersion projectId versionId fetch))))
      as [Hfail | [b Hok]].
    + by destruct (deleteAppVersion_Failure st _ _ _ Hfail) as [m ->].
    + rewrite (deleteAppVersion_Success st _ _ _ b Hok). cbn [fst projects].
      apply Forall_fmap. eapply Forall_impl; [exact Hinv |].
      intros p Hp. cbn. case_decide; [| done].
      cbn [Project.versions Project.with_versions]. by apply NoDup_fmap_filter.
  - intros projectId versionId envs fetch Hsame.
    destruct (Failure_or_Success (fetch (request_of
                (OpUpdateVersionEnvironments projectId versionId envs fetch))))
      as [Hfail | [b Hok]].
    + by destruct (updateVersionEnvironments_Failure st _ _ _ _ Hfail) as [m ->].
    + rewrite (updateVersionEnvironments_Success st _ _ _ _ b Hok). cbn [fst projects].
      apply Forall_fmap. eapply Forall_impl; [exact Hinv |].
      intros p Hp. cbn. case_decide; [| done].
      cbn [Project.versions Project.with_versions].
      rewrite <- list_fmap_compose.
      erewrite list_fmap_ext; [exact Hp |].
      intros i v _. unfold compose. case_decide; [| done].
      by rewrite (Hsame b Hok).
  - intros projectId versionData file fetch Hfresh.
    destruct (Failure_or_Success (fetch (request_of
                (OpAddAppVersion projectId versionData file fetch))))
      as [Hfail | [b Hok]].
    + by destruct (addAppVersion_Failure getTime st _ _ _ _ Hfail) as [m ->].
    + rewrite (addAppVersion_Success getTime st _ _ _ _ b Hok). cbn [fst projects].
      apply Forall_fmap, Forall_forall. intros p Hp. cbv beta delta [compose].
      pose proof (proj1 (Forall_forall _ _) Hinv p Hp) as Hdup.
      case_decide as Hid; [| done].
      cbn [Project.versions Project.with_versions].
      rewrite Array_sort_Permutation, fmap_cons. apply NoDup_cons.
      split; [| done]. by apply (Hfresh b p Hok Hp Hid).
Qed.

Lemma version_identifiers_unique_witness :
  Forall (fun p => NoDup (versionIds p))
    (projects (fst (deleteAppVersion "P" "V1" (respond 200 (mkBody None tt))
                      Scenario.cache))).
Proof.
  apply (version_identifiers_unique IsoDate.getTime Scenario.cache).
  refine (bool_decide_unpack _ _). by vm_compute.
Defined.

(** X12. Descending order of upload time is kept: when every cached project
    holds its versions in that order, it still does after [addAppVersion]
    and after [deleteAppVersion], on every outcome; and after a successful
    [addAppVersion] the projects it was added to hold their versions in
    that order whatever order they were in before. *)
Theorem upload_order_kept getTime st :
  (forall projectId versionData file fetch b p,
     Success (fetch (request_of (OpAddAppVersion projectId versionData file fetch))) b ->
     p ∈ projects (fst (addAppVersion getTime projectId versionData file fetch st)) ->
     Project._id p = projectId ->
     StronglySorted (notOlder getTime) (Project.versions p)) /\
  (Forall (fun p => StronglySorted (notOlder getTime) (Project.versions p)) (projects st) ->
   (forall projectId versionData file fetch,
      Forall (fun p => StronglySorted (notOlder getTime) (Project.versions p))
        (projects (fst (addAppVersion getTime projectId versionData file fetch st)))) /\
   (forall projectId versionId fetch,
      Forall (fun p => StronglySorted (notOlder getTime) (Project.versions p))
        (projects (fst (deleteAppVersion projectId versionId fetch st))))).
Proof.
  split; [| intros Hinv; split].
  - intros projectId versionData file fetch b p Hok Hp Hid.
    rewrite (addAppVersion_Success getTime st _ _ _ _ b Hok) in Hp.
    cbn [fst projects] in Hp. apply list_elem_of_fmap in Hp as (q & -> & Hq).
    destruct (decide (Project._id q = projectId)) as [Hq' | Hq']; [| done].
    apply sort_byUploadDateDesc_descending.
  - intros projectId versionData file fetch.
    destruct (Failure_or_Success (fetch (request_of
                (OpAddAppVersion projectId versionData file fetch))))
      as [Hfail | [b Hok]].
    + by destruct (addAppVersion_Failure getTime st _ _ _ _ Hfail) as [m ->].
    + rewrite (addAppVersion_Success getTime st _ _ _ _ b Hok). cbn [fst projects].
      apply Forall_fmap. eapply Forall_impl; [exact Hinv |].
      intros p Hp. cbv beta delta [compose]. case_decide; [| done].
      apply sort_byUploadDateDesc_descending.
  - intros projectId versionId fetch.
    destruct (Failure_or_Success (fetch (request_of
                (OpDeleteAppVersion projectId versionId fetch))))
      as [Hfail | [b Hok]].
    + by destruct (deleteAppVersion_Failure st _ _ _ Hfail) as [m ->].
    + rewrite (deleteAppVersion_Success st _ _ _ b Hok). cbn [fst projects].
      apply Forall_fmap. eapply Forall_impl; [exact Hinv |].
      intros p Hp. cbn. case_decide; [| done].
      by apply StronglySorted_filter.
Qed.

Lemma upload_order_kept_witness :
  Forall (fun p => StronglySorted (notOlder IsoDate.getTime) (Project.versions p))
    (projects (fst (deleteAppVersion "P" "V2" (respond 200 (mkBody None tt))
                      Scenario.cache))).
Proof.
  apply (upload_order_kept IsoDate.getTime Scenario.cache).
  repeat constructor; unfold notOlder, uploadTime; by vm_compute.
Defined.

(** ** The pages *)

Lemma Success_functional {D} (c : Completion (Response D)) b b' :
  Success c b -> Success c b' -> b = b'.
Proof. intros Hb Hb'. destruct Hb. by inversion Hb'. Qed.

Lemma filter_ne_elem_of {A} `{EqDecision A} (x y : A) (l : list A) :
  y ∈ filter (fun z => z <> x) l <-> y <> x /\ y ∈ l.
Proof. by rewrite list_elem_of_filter. Qed.

(** X13. What [toggleVersionEnvironment] does with the container. Without
    a project on the page, or when no version of the page's project has
    the identifier, it does nothing at all: the provider's state is the
    one it found. Otherwise it is one call of [updateVersionEnvironments]
    for that version with a set in which the membership of the
    environment is flipped and that of every other environment is as in
    the set of the version; the set has no duplicates when the version's
    has none. No other version is named in any call. *)
Theorem toggleVersionEnvironment_flips project versionId environment :
  (project = None \/
   (exists p, project = Some p /\
      forall v, v ∈ Project.versions p -> AppVersion._id v <> versionId) ->
   forall fetch st,
     ProjectDetailsPage.toggleVersionEnvironment project versionId environment fetch st
     = st) /\
  (forall p targetVersion,
     project = Some p ->
     snd <$> list_find (fun v => AppVersion._id v = versionId) (Project.versions p)
     = Some targetVersion ->
     exists envs,
       (environment ∈ envs <->
        environment ∉ AppVersion.activeEnvironments targetVersion) /\
       (forall e, e <> environment ->
          e ∈ envs <-> e ∈ AppVersion.activeEnvironments targetVersion) /\
       (NoDup (AppVersion.activeEnvironments targetVersion) -> NoDup envs) /\
       forall fetch st,
         ProjectDetailsPage.toggleVersionEnvironment project versionId environment
           fetch st
         = fst (updateVersionEnvironments (Project._id p) versionId envs fetch st)).
Proof.
  split.
  - intros [-> | (p & -> & Habsent)] fetch st; [done |].
    unfold ProjectDetailsPage.toggleVersionEnvironment.
    assert (snd <$> list_find (fun v => AppVersion._id v = versionId)
                      (Project.versions p) = None) as ->; [| done].
    rewrite fmap_None, list_find_None, Forall_forall. done.
  - intros p targetVersion -> Hfind.
    unfold ProjectDetailsPage.toggleVersionEnvironment. rewrite Hfind. cbv zeta.
    destruct (decide (environment ∈ AppVersion.activeEnvironments targetVersion))
      as [Hin | Hout].
    + exists (filter (fun e => e <> environment)
                (AppVersion.activeEnvironments targetVersion)).
      split; [| split; [| split]].
      * rewrite filter_ne_elem_of. tauto.
      * intros e He. rewrite filter_ne_elem_of. tauto.
      * apply NoDup_filter.
      * intros fetch st. by rewrite bool_decide_eq_true_2.
    + exists (AppVersion.activeEnvironments targetVersion ++ [environment]).
      split; [| split; [| split]].
      * rewrite elem_of_app, list_elem_of_singleton. tauto.
      * intros e He. rewrite elem_of_app, list_elem_of_singleton. tauto.
      * intros Hdup. apply NoDup_app. split; [done |]. split; [| apply NoDup_singleton].
        intros e He He'. apply list_elem_of_singleton in He' as ->. done.
      * intros fetch st. by rewrite bool_decide_eq_false_2.
Qed.

Lemma toggleVersionEnvironment_flips_witness :
  ProjectDetailsPage.toggleVersionEnvironment (Some Scenario.P) "V9" Staging
    unreachable Scenario.cache
  = Scenario.cache.
Proof.
  apply (proj1 (toggleVersionEnvironment_flips (Some Scenario.P) "V9" Staging)).
  right. exists Scenario.P. split; [reflexivity |].
  intros v Hv. cbn in Hv. rewrite !elem_of_cons in Hv.
  destruct Hv as [-> | [-> | Hv]]; [discriminate | discriminate |].
  by apply elem_of_nil in Hv.
Defined.

(** X14. What [handleAddVersion] does with the upload dialog. When the
    page has no project, no file is selected, or the version name or the
    build number is blank after trimming, nothing is sent: the form and
    the provider's state are the ones found. Otherwise the provider's
    state is that of one [addAppVersion] with the fields as typed (not
    trimmed) and the name of the file; when the exchange fails the form is
    left as typed and the cache as found, and when it succeeds the dialog
    is closed and the name, build number, notes and file are cleared. *)
Theorem handleAddVersion_keeps_input trim getTime project form fetch st :
  let res := ProjectDetailsPage.handleAddVersion trim getTime project form fetch st in
  (project = None \/ ProjectDetailsPage.selectedFile form = None \/
   trim (ProjectDetailsPage.newVersionName form) = "" \/
   trim (ProjectDetailsPage.newBuildNumber form) = "" ->
   res = (form, st)) /\
  (forall p file,
     project = Some p -> ProjectDetailsPage.selectedFile form = Some file ->
     trim (ProjectDetailsPage.newVersionName form) <> "" ->
     trim (ProjectDetailsPage.newBuildNumber form) <> "" ->
     let versionData :=
       {| VersionData.platform := ProjectDetailsPage.newVersionPlatform form;
          VersionData.versionName := ProjectDetailsPage.newVersionName form;
          VersionData.buildNumber := ProjectDetailsPage.newBuildNumber form;
          VersionData.fileName := File.name file;
          VersionData.releaseNotes := Some (ProjectDetailsPage.newReleaseNotes form) |} in
     let outcome :=
       fetch (request_of (OpAddAppVersion (Project._id p) versionData file fetch)) in
     snd res = fst (addAppVersion getTime (Project._id p) versionData file fetch st) /\
     (Failure outcome -> fst res = form /\ projects (snd res) = projects st) /\
     (forall b, Success outcome b ->
        ProjectDetailsPage.isUploadModalOpen (fst res) = false /\
        ProjectDetailsPage.newVersionName (fst res) = "" /\
        ProjectDetailsPage.newBuildNumber (fst res) = "" /\
        ProjectDetailsPage.newReleaseNotes (fst res) = "" /\
        ProjectDetailsPage.selectedFile (fst res) = None)).
Proof.
  cbv zeta. unfold ProjectDetailsPage.handleAddVersion. split.
  - intros [-> | [Hfile | Hblank]]; [done | |].
    + rewrite Hfile. by destruct project.
    + destruct project as [p |]; [| done].
      destruct (ProjectDetailsPage.selectedFile form) as [file |]; [| done].
      rewrite decide_True; [done | tauto].
  - intros p file -> -> Hname Hbuild. rewrite decide_False by tauto.
    destruct (Failure_or_Success
                (fetch (request_of (OpAddAppVersion (Project._id p)
                   {| VersionData.platform := ProjectDetailsPage.newVersionPlatform form;
                      VersionData.versionName := ProjectDetailsPage.newVersionName form;
                      VersionData.buildNumber := ProjectDetailsPage.newBuildNumber form;
                      VersionData.fileName := File.name file;
                      VersionData.releaseNotes :=
                        Some (ProjectDetailsPage.newReleaseNotes form) |} file fetch))))
      as [Hfail | [b Hok]].
    + destruct (addAppVersion_Failure getTime st _ _ _ _ Hfail) as [m ->]. cbn.
      split; [done |]. split; [done |].
      intros b Hok. destruct (Failure_not_Success _ _ Hfail Hok).
    + rewrite (addAppVersion_Success getTime st _ _ _ _ b Hok). cbn.
      split; [done |]. split; [| done].
      intros Hfail. destruct (Failure_not_Success _ _ Hfail Hok).
Qed.

Lemma handleAddVersion_keeps_input_witness :
  ProjectDetailsPage.handleAddVersion AsciiString.trim IsoDate.getTime
    (Some Scenario.P)
    (ProjectDetailsPage.mkForm true Android "1.2.0" "   " "Fixes." (Some Scenario.apk))
    (respond 201 (mkBody None Scenario.V3)) Scenario.cache
  = (ProjectDetailsPage.mkForm true Android "1.2.0" "   " "Fixes." (Some Scenario.apk),
     Scenario.cache).
Proof.
  apply (proj1 (handleAddVersion_keeps_input AsciiString.trim IsoDate.getTime
                  (Some Scenario.P)
                  (ProjectDetailsPage.mkForm true Android "1.2.0" "   " "Fixes."
                     (Some Scenario.apk))
                  (respond 201 (mkBody None Scenario.V3)) Scenario.cache)).
  right. right. right. reflexivity.
Defined.

(** X15. What [handleCreateProject] does with the dialog. When the name is
    blank after trimming or no platform is selected, nothing is sent: the
    form and the provider's state are the ones found. Otherwise the
    provider's state is that of one [addProject] with the name and the
    description as typed; when the exchange fails the form is left as
    typed and the cache as found, and when it succeeds the dialog is
    closed, its fields are cleared and the project of the response is the
    last of the cache. *)
Theorem handleCreateProject_keeps_input trim form fetch st :
  let res := DashboardPage.handleCreateProject trim form fetch st in
  (trim (DashboardPage.newProjectName form) = "" \/
   DashboardPage.selectedPlatforms form = [] ->
   res = (form, st)) /\
  (trim (DashboardPage.newProjectName form) <> "" ->
   DashboardPage.selectedPlatforms form <> [] ->
   let outcome :=
     fetch (request_of (OpAddProject (DashboardPage.newProjectName form)
                          (Some (DashboardPage.newProjectDescription form))
                          (DashboardPage.selectedPlatforms form) fetch)) in
   (Failure outcome -> fst res = form /\ projects (snd res) = projects st) /\
   (forall b, Success outcome b ->
      fst res = DashboardPage.mkForm false "" "" [] /\
      projects (snd res) = projects st ++ [data b])).
Proof.
  cbv zeta. unfold DashboardPage.handleCreateProject. split.
  - intros Hinvalid. rewrite decide_False; [done |].
    intros [Hname Hplatforms]. destruct Hinvalid as [Hblank | Hnone]; [done |].
    rewrite Hnone in Hplatforms. cbn in Hplatforms. lia.
  - intros Hname Hplatforms. rewrite decide_True.
    2:{ split; [done |].
        destruct (DashboardPage.selectedPlatforms form); [done | cbn; lia]. }
    destruct (Failure_or_Success
                (fetch (request_of (OpAddProject (DashboardPage.newProjectName form)
                          (Some (DashboardPage.newProjectDescription form))
                          (DashboardPage.selectedPlatforms form) fetch))))
      as [Hfail | [b Hok]].
    + destruct (addProject_Failure st _ _ _ _ Hfail) as [m ->]. cbn.
      split; [done |]. intros b Hok. destruct (Failure_not_Success _ _ Hfail Hok).
    + rewrite (addProject_Success st _ _ _ _ b Hok). cbn.
      split; [intros Hfail; destruct (Failure_not_Success _ _ Hfail Hok) |].
      intros b' Hok'. by rewrite (Success_functional _ _ _ Hok' Hok).
Qed.

Lemma handleCreateProject_keeps_input_witness :
  DashboardPage.handleCreateProject AsciiString.trim
    (DashboardPage.mkForm true "Courier" "" []) unreachable Scenario.cache
  = (DashboardPage.mkForm true "Courier" "" [], Scenario.cache).
Proof.
  apply (proj1 (handleCreateProject_keeps_input AsciiString.trim
                  (DashboardPage.mkForm true "Courier" "" []) unreachable
                  Scenario.cache)).
  right. reflexivity.
Defined.

(** X16. [togglePlatform] flips the selection of the platform and of no
    other: the platform is selected afterwards exactly when it was not
    before, every other platform is selected exactly when it was before,
    and a selection without duplicates stays without duplicates. *)
Theorem togglePlatform_flips platform prev :
  (platform ∈ DashboardPage.togglePlatform platform prev <-> platform ∉ prev) /\
  (forall other, other <> platform ->
     other ∈ DashboardPage.togglePlatform platform prev <-> other ∈ prev) /\
  (NoDup prev -> NoDup (DashboardPage.togglePlatform platform prev)).
Proof.
  unfold DashboardPage.togglePlatform.
  destruct (decide (platform ∈ prev)) as [Hin | Hout].
  - rewrite bool_decide_eq_true_2 by done. split; [| split].
    + rewrite filter_ne_elem_of. tauto.
    + intros other Hne. rewrite filter_ne_elem_of. tauto.
    + apply NoDup_filter.
  - rewrite bool_decide_eq_false_2 by done. split; [| split].
    + rewrite elem_of_app, list_elem_of_singleton. tauto.
    + intros other Hne. rewrite elem_of_app, list_elem_of_singleton. tauto.
    + intros Hdup. apply NoDup_app. split; [done |]. split; [| apply NoDup_singleton].
      intros e He He'. apply list_elem_of_singleton in He' as ->. done.
Qed.

(** X17. Toggling a platform twice: a selection that did not contain the
    platform is the list it was; one that contained it holds the same
    platforms as before, with the toggled one moved to the end (once, even
    if it occurred several times). *)
Theorem togglePlatform_twice platform prev :
  (platform ∉ prev ->
   DashboardPage.togglePlatform platform (DashboardPage.togglePlatform platform prev)
   = prev) /\
  (platform ∈ prev ->
   DashboardPage.togglePlatform platform (DashboardPage.togglePlatform platform prev)
   = filter (fun p => p <> platform) prev ++ [platform]).
Proof.
  unfold DashboardPage.togglePlatform. split.
  - intros Hout. rewrite (bool_decide_eq_false_2 _ Hout).
    rewrite bool_decide_eq_true_2
      by (rewrite elem_of_app, list_elem_of_singleton; tauto).
    rewrite filter_app, filter_cons_False, filter_nil, app_nil_r by tauto.
    induction prev as [| q prev IH]; [done |].
    apply not_elem_of_cons in Hout as [Hne Hout].
    by rewrite filter_cons_True, IH.
  - intros Hin. rewrite (bool_decide_eq_true_2 _ Hin).
    rewrite bool_decide_eq_false_2; [done |].
    rewrite filter_ne_elem_of. tauto.
Qed.

Lemma togglePlatform_twice_witness :
  DashboardPage.togglePlatform iOS (DashboardPage.togglePlatform iOS [Android])
  = [Android].
Proof.
  apply (proj1 (togglePlatform_twice iOS [Android])).
  intros Hin. apply list_elem_of_singleton in Hin. discriminate Hin.
Defined.

(** ** generateTextWithGoogleSearch *)

(** X18. [generateTextWithGoogleSearch] without API credentials returns its
    fixed text with an empty list of grounding chunks, whatever the
    service would answer. With credentials, a request that fails raises
    an [Error] whose message is "Failed to generate content with search: "
    followed by the cause; a request that succeeds returns the text of the
    response and the grounding chunks of its first candidate, which are
    [undefined], without an exception, when the response has no
    candidates, an empty list of them, or a first candidate without
    grounding metadata or without chunks. *)
Theorem generateTextWithGoogleSearch_outcomes API_KEY search prompt :
  (API_KEY = None \/ API_KEY = Some "" ->
   geminiService.generateTextWithGoogleSearch API_KEY search prompt
   = Return (GroundedText.mk
               "Google Search grounding is unavailable. Please provide an API_KEY."
               (Some []))) /\
  (forall key, API_KEY = Some key -> key <> "" ->
     match search GEMINI_API_MODEL_TEXT prompt with
     | Grounded response =>
         exists chunks,
           geminiService.generateTextWithGoogleSearch API_KEY search prompt
           = Return (GroundedText.mk (GenerateContentResponse.text response) chunks) /\
           forall found,
             chunks = Some found <->
             exists candidate others metadata,
               GenerateContentResponse.candidates response = Some (candidate :: others) /\
               Candidate.groundingMetadata candidate = Some metadata /\
               GroundingMetadata.groundingChunks metadata = Some found
     | GroundedRejected error =>
         geminiService.generateTextWithGoogleSearch API_KEY search prompt
         = Throw ("Failed to generate content with search: " +:+
                  match error with
                  | ErrorObject message => message
                  | OtherValue asString => asString
                  end)
     end).
Proof.
  split.
  - intros [-> | ->]; reflexivity.
  - intros key -> Hkey. unfold geminiService.generateTextWithGoogleSearch.
    cbn [not_str]. rewrite bool_decide_eq_false_2 by done.
    destruct (search GEMINI_API_MODEL_TEXT prompt) as [response | e]; [| done].
    eexists. split; [done |]. intros found.
    destruct response as [text [[| candidate others] |]]; cbn.
    + split; [done | intros (c & o & m & [=] & _)].
    + destruct candidate as [[[chunks] |]]; cbn.
      * split.
        -- intros ->. by exists (Candidate.mk (Some (GroundingMetadata.mk (Some found)))),
                     others, (GroundingMetadata.mk (Some found)).
        -- by intros (c & o & m & [= <- <-] & [= <-] & Hchunks).
      * split; [done | by intros (c & o & m & [= <- <-] & [=] & _)].
    + split; [done | intros (c & o & m & [=] & _)].
Qed.

Lemma generateTextWithGoogleSearch_outcomes_witness :
  geminiService.generateTextWithGoogleSearch (Some "secret")
    (fun _ _ : string => GroundedRejected (OtherValue "timeout")) "What is new?"
  = Throw "Failed to generate content with search: timeout".
Proof.
  exact (proj2 (generateTextWithGoogleSearch_outcomes (Some "secret")
                  (fun _ _ : string => GroundedRejected (OtherValue "timeout"))
                  "What is new?") "secret" eq_refl ltac:(discriminate)).
Defined.

(** ** MockDownloadPage *)



(** ** Toggling an environment off, and on and off *)

Lemma version_of_identifier (vs : list AppVersion.t) v w :
  NoDup (AppVersion._id <$> vs) -> v ∈ vs -> w ∈ vs ->
  AppVersion._id v = AppVersion._id w -> v = w.
Proof.
  induction vs as [| x vs IH]; [by intros _ Hv; apply elem_of_nil in Hv |].
  rewrite fmap_cons, NoDup_cons, !elem_of_cons.
  intros [Hx Hdup] [-> | Hv] [-> | Hw] Hid; [done | | | by apply IH].
  - destruct Hx. rewrite Hid. by apply list_elem_of_fmap_2.
  - destruct Hx. rewrite <- Hid. by apply list_elem_of_fmap_2.
Qed.

Lemma find_version_Some versionId (vs : list AppVersion.t) targetVersion :
  snd <$> list_find (fun v => AppVersion._id v = versionId) vs = Some targetVersion ->
  targetVersion ∈ vs /\ AppVersion._id targetVersion = versionId.
Proof.
  intros Hfind. apply fmap_Some in Hfind as [[i v] [Hfind ->]].
  apply list_find_Some in Hfind as (Hi & Hid & _). split; [| done].
  by eapply list_elem_of_lookup_2.
Qed.

Lemma find_version_fmap (r : AppVersion.t -> AppVersion.t) versionId
    (vs : list AppVersion.t) :
  (forall v, AppVersion._id (r v) = AppVersion._id v) ->
  snd <$> list_find (fun v => AppVersion._id v = versionId) (r <$> vs)
  = r <$> (snd <$> list_find (fun v => AppVersion._id v = versionId) vs).
Proof.
  intros Hid. induction vs as [| v vs IH]; [done |].
  rewrite fmap_cons. cbn [list_find]. rewrite Hid. case_decide; [done |].
  cbn in IH |- *.
  destruct (list_find (fun v => AppVersion._id v = versionId) (r <$> vs)) as [[i x] |],
           (list_find (fun v => AppVersion._id v = versionId) vs) as [[j y] |];
    cbn in IH |- *; congruence.
Qed.

Lemma filter_fmap_length_le {A} (Q : A -> Prop) `{forall x, Decision (Q x)}
    (r : A -> A) (l : list A) :
  (forall v, v ∈ l -> Q (r v) -> Q v) ->
  (length (filter Q (r <$> l)) <= length (filter Q l))%nat.
Proof.
  induction l as [| x l IH]; [done |]. intros Hr.
  assert ((length (filter Q (r <$> l)) <= length (filter Q l))%nat) as Hle.
  { apply IH. intros v Hv. apply Hr. by apply list_elem_of_further. }
  rewrite fmap_cons, !filter_cons.
  destruct (decide (Q (r x))) as [Hrx | Hrx].
  - rewrite decide_True by (apply Hr; [apply list_elem_of_here | done]). cbn. lia.
  - case_decide; cbn; lia.
Qed.

Lemma exclusive_monotone p p' :
  (forall platform environment,
     (activeCount platform environment p' <= activeCount platform environment p)%nat) ->
  exclusive p = true -> exclusive p' = true.
Proof.
  intros Hle. unfold exclusive. cbn [forallb].
  rewrite !andb_true_iff, !Nat.leb_le.
  pose proof (Hle Android Development). pose proof (Hle Android Staging).
  pose proof (Hle Android Production). pose proof (Hle iOS Development).
  pose proof (Hle iOS Staging). pose proof (Hle iOS Production). lia.
Qed.

(** X20. Taking an environment off a version does not break the policy of
    one active version per platform and environment. When the page's
    project is the cached one, its versions have pairwise different
    identifiers, the version is active in the environment, and the server
    answers with the version and the set it was sent, the cached project
    has, for every platform and environment, at most as many active
    versions after the handler as before: a project that satisfied the
    policy satisfies it afterwards. *)
Theorem deactivation_keeps_exclusive p targetVersion versionId environment fetch st i b :
  projects st !! i = Some p ->
  NoDup (versionIds p) ->
  snd <$> list_find (fun v => AppVersion._id v = versionId) (Project.versions p)
  = Some targetVersion ->
  environment ∈ AppVersion.activeEnvironments targetVersion ->
  let envs := filter (fun e => e <> environment)
                     (AppVersion.activeEnvironments targetVersion) in
  Success (fetch (request_of
             (OpUpdateVersionEnvironments (Project._id p) versionId envs fetch))) b ->
  data b = AppVersion.with_activeEnvironments targetVersion envs ->
  exists p',
    projects (ProjectDetailsPage.toggleVersionEnvironment (Some p) versionId
                environment fetch st) !! i = Some p' /\
    (forall platform e,
       (activeCount platform e p' <= activeCount platform e p)%nat) /\
    (exclusive p = true -> exclusive p' = true).
Proof.
  intros Hp Hdup Hfind Hactive envs Hok Hdata.
  destruct (find_version_Some _ _ _ Hfind) as [Htarget Htargetid].
  unfold ProjectDetailsPage.toggleVersionEnvironment.
  rewrite Hfind. cbv zeta. rewrite (bool_decide_eq_true_2 _ Hactive). fold envs.
  rewrite (updateVersionEnvironments_Success st _ _ _ _ b Hok). cbn [fst projects].
  rewrite (reconcile_lookup _ _ _ _ _ Hp), decide_True by done.
  eexists. split; [done |].
  assert (forall platform e,
            (activeCount platform e
               (Project.with_versions p
                  ((fun v => if decide (AppVersion._id v = versionId)
                             then data b else v) <$> Project.versions p))
             <= activeCount platform e p)%nat) as Hle.
  { intros platform e. unfold activeCount.
    cbn [Project.versions Project.with_versions].
    apply filter_fmap_length_le. intros v Hv. cbv beta.
    case_decide as Hvid; [| done].
    assert (v = targetVersion) as ->.
    { apply (version_of_identifier (Project.versions p)); try done. congruence. }
    rewrite Hdata. cbn. intros [Hplatform He]. split; [done |].
    subst envs. by apply filter_ne_elem_of in He as [_ He]. }
  split; [exact Hle |]. by apply exclusive_monotone.
Qed.

Lemma deactivation_keeps_exclusive_witness :
  exists p',
    projects (ProjectDetailsPage.toggleVersionEnvironment (Some Scenario.P) "V1"
                Staging (storesEnvironments Scenario.V1) Scenario.cache) !! 0%nat
    = Some p' /\
    (forall platform e,
       (activeCount platform e p' <= activeCount platform e Scenario.P)%nat) /\
    (exclusive Scenario.P = true -> exclusive p' = true).
Proof.
  apply (deactivation_keeps_exclusive Scenario.P Scenario.V1 "V1" Staging
           (storesEnvironments Scenario.V1) Scenario.cache 0%nat
           (mkBody None (AppVersion.with_activeEnvironments Scenario.V1 []))).
  - reflexivity.
  - refine (bool_decide_unpack _ _). by vm_compute.
  - reflexivity.
  - apply list_elem_of_here.
  - constructor; lia.
  - reflexivity.
Defined.

Lemma find_project_unique (ps : list Project.t) i p :
  ps !! i = Some p ->
  (forall q, q ∈ ps -> Project._id q = Project._id p -> q = p) ->
  snd <$> list_find (fun q => Project._id q = Project._id p) ps = Some p.
Proof.
  intros Hp Hunique.
  destruct (list_find (fun q => Project._id q = Project._id p) ps) as [[j q] |] eqn:Hfind.
  - apply list_find_Some in Hfind as (Hj & Hid & _). cbn. f_equal.
    apply Hunique; [| done]. by eapply list_elem_of_lookup_2.
  - apply list_find_None in Hfind.
    destruct (proj1 (Forall_forall _ _) Hfind p); [| done].
    by eapply list_elem_of_lookup_2.
Qed.

Lemma filter_ne_snoc {A} `{EqDecision A} (x : A) (l : list A) :
  x ∉ l -> filter (fun e => e <> x) (l ++ [x]) = l.
Proof.
  intros Hout. rewrite filter_app, filter_cons_False, filter_nil, app_nil_r by tauto.
  induction l as [| y l IH]; [done |].
  apply not_elem_of_cons in Hout as [Hne Hout].
  by rewrite filter_cons_True, IH.
Qed.

(** X21. Toggling an environment on and then off again gives back the
    cache there was. The page's project is the only cached project with
    its identifier, its versions have pairwise different identifiers, the
    version is not active in the environment at first, the page reads its
    project from the cache again between the two clicks, and the server
    answers each request with the version and the set it was sent. *)
Theorem toggle_on_off_roundtrip p targetVersion versionId environment
    fetchOn fetchOff st i b1 b2 :
  projects st !! i = Some p ->
  (forall q, q ∈ projects st -> Project._id q = Project._id p -> q = p) ->
  NoDup (versionIds p) ->
  snd <$> list_find (fun v => AppVersion._id v = versionId) (Project.versions p)
  = Some targetVersion ->
  environment ∉ AppVersion.activeEnvironments targetVersion ->
  let on := AppVersion.activeEnvironments targetVersion ++ [environment] in
  Success (fetchOn (request_of
             (OpUpdateVersionEnvironments (Project._id p) versionId on fetchOn))) b1 ->
  data b1 = AppVersion.with_activeEnvironments targetVersion on ->
  let st1 := ProjectDetailsPage.toggleVersionEnvironment (Some p) versionId
               environment fetchOn st in
  let off := filter (fun e => e <> environment)
                    (AppVersion.activeEnvironments (data b1)) in
  Success (fetchOff (request_of
             (OpUpdateVersionEnvironments (Project._id p) versionId off fetchOff))) b2 ->
  data b2 = AppVersion.with_activeEnvironments (data b1) off ->
  projects (ProjectDetailsPage.toggleVersionEnvironment
              (getProjectById st1 (Project._id p)) versionId environment fetchOff st1)
  = projects st.
Proof.
  intros Hp Hunique Hdup Hfind Hinactive on Hok1 Hdata1 st1 off Hok2 Hdata2.
  destruct (find_version_Some _ _ _ Hfind) as [Htarget Htargetid].
  assert (AppVersion._id (data b1) = versionId) as Hid1 by (by rewrite Hdata1).
  assert (data b2 = targetVersion) as Hback.
  { rewrite Hdata2. subst off. rewrite Hdata1. cbn. subst on.
    rewrite (filter_ne_snoc _ _ Hinactive). by destruct targetVersion. }
  (* the first click *)
  assert (st1 = {| projects :=
                     (fun q => if decide (Project._id q = Project._id p)
                               then Project.with_versions q
                                      ((fun v => if decide (AppVersion._id v = versionId)
                                                 then data b1 else v)
                                         <$> Project.versions q)
                               else q) <$> projects st;
                   loading := false; error := None |}) as Hst1.
  { subst st1. unfold ProjectDetailsPage.toggleVersionEnvironment.
    rewrite Hfind. cbv zeta. rewrite (bool_decide_eq_false_2 _ Hinactive). fold on.
    rewrite (updateVersionEnvironments_Success st _ _ _ _ b1 Hok1). reflexivity. }
  (* the project the page reads back *)
  assert (getProjectById st1 (Project._id p)
          = Some (Project.with_versions p
                    ((fun v => if decide (AppVersion._id v = versionId)
                               then data b1 else v) <$> Project.versions p))) as Hread.
  { rewrite Hst1. unfold getProjectById. cbn [projects].
    rewrite (find_project_reconciled
               (fun q => (fun v => if decide (AppVersion._id v = versionId)
                                   then data b1 else v) <$> Project.versions q)).
    rewrite (find_project_unique _ _ _ Hp Hunique). cbn. by rewrite decide_True. }
  (* the second click *)
  rewrite Hread. unfold ProjectDetailsPage.toggleVersionEnvironment.
  cbn [Project.versions Project.with_versions Project._id].
  rewrite find_version_fmap by (intros v; case_decide; congruence).
  rewrite Hfind. cbn [fmap option_fmap option_map].
  rewrite (decide_True _ _ Htargetid). cbv zeta.
  rewrite bool_decide_eq_true_2.
  2:{ rewrite Hdata1. cbn. subst on.
      rewrite elem_of_app, list_elem_of_singleton. tauto. }
  fold off. rewrite (updateVersionEnvironments_Success st1 _ _ _ _ b2 Hok2).
  cbn [fst projects]. rewrite Hst1. cbn [projects].
  rewrite <- list_fmap_compose. rewrite <- (list_fmap_id (projects st)) at 2.
  apply list_fmap_ext. intros j q Hq. unfold compose, id.
  destruct (decide (Project._id q = Project._id p)) as [Hqid | Hqid].
  - cbn [Project._id Project.with_versions]. rewrite decide_True by done.
    cbn [Project.versions Project.with_versions].
    assert (q = p) as -> by (apply Hunique; [by eapply list_elem_of_lookup_2 | done]).
    assert ((fun v => if decide (AppVersion._id v = versionId) then data b2 else v)
              <$> ((fun v => if decide (AppVersion._id v = versionId)
                             then data b1 else v) <$> Project.versions p)
            = Project.versions p) as ->; [| by destruct p].
    rewrite <- list_fmap_compose. rewrite <- (list_fmap_id (Project.versions p)) at 2.
    apply list_fmap_ext. intros k v Hv. unfold compose, id.
    destruct (decide (AppVersion._id v = versionId)) as [Hvid | Hvid].
    + rewrite decide_True by done. rewrite Hback.
      apply (version_of_identifier (Project.versions p)); try done.
      * by eapply list_elem_of_lookup_2.
      * congruence.
    + by rewrite decide_False.
  - by rewrite decide_False.
Qed.

Lemma toggle_on_off_roundtrip_witness :
  projects
    (ProjectDetailsPage.toggleVersionEnvironment
       (getProjectById
          (ProjectDetailsPage.toggleVersionEnvironment (Some Scenario.P) "V2" Staging
             (storesEnvironments Scenario.V2) Scenario.cache) "P")
       "V2" Staging
       (storesEnvironments (AppVersion.with_activeEnvironments Scenario.V2 [Staging]))
       (ProjectDetailsPage.toggleVersionEnvironment (Some Scenario.P) "V2" Staging
          (storesEnvironments Scenario.V2) Scenario.cache))
  = projects Scenario.cache.
Proof.
  apply (toggle_on_off_roundtrip Scenario.P Scenario.V2 "V2" Staging
           (storesEnvironments Scenario.V2)
           (storesEnvironments (AppVersion.with_activeEnvironments Scenario.V2 [Staging]))
           Scenario.cache 0%nat
           (mkBody None (AppVersion.with_activeEnvironments Scenario.V2 [Staging]))
           (mkBody None (AppVersion.with_activeEnvironments
                           (AppVersion.with_activeEnvironments Scenario.V2 [Staging])
                           []))).
  - reflexivity.
  - intros q Hq Hid. cbn in Hq. rewrite !elem_of_cons in Hq.
    destruct Hq as [-> | [-> | Hq]]; [done | discriminate Hid |].
    by apply elem_of_nil in Hq.
  - refine (bool_decide_unpack _ _). by vm_compute.
  - reflexivity.
  - apply not_elem_of_nil.
  - constructor; lia.
  - reflexivity.
  - constructor; lia.
  - reflexivity.
Defined.
